(** * Evaluate.py: ranking metrics (MRR, Hits@k, Precision@k) over a qrels table

    A shallow embedding of the class [Eval] of [Evaluate.py].

    - Python [int] is [Z]; Python [float] is an exact rational [Qc] (canonical
      rationals, so Leibniz equality is value equality).  Rounding of IEEE
      doubles is outside the model: [EPS] is exactly 1/10^12.
    - The data frame [self.qrels] is a list of rows, in file order.
    - Methods run in a small state-and-exception monad over a [world] made of
      the [Eval] object and the text printed so far.  A raised exception keeps
      the world reached at the raise, as in Python. *)

From stdpp Require Import base numbers list gmap strings pretty.
From Stdlib Require Import QArith Qcanon.

Local Open Scope Z_scope.

(** ** Exceptions and outcomes *)

Inductive exn : Type :=
  | IndexError (msg : string)
  | ValueError (msg : string)
  | ZeroDivisionError (msg : string).

(** [IndexError] derives from [LookupError]; the two others do not. *)
Definition is_LookupError (e : exn) : bool :=
  match e with IndexError _ => true | _ => false end.

Definition is_ValueError (e : exn) : bool :=
  match e with ValueError _ => true | _ => false end.

Inductive outcome (A : Type) : Type :=
  | Return (a : A)
  | Raise (e : exn).
Arguments Return {A} a.
Arguments Raise {A} e.

(** ** The judgments table *)

(** One row of the tab-separated file, columns named
    ['id_left', '0', 'id_right', 'label'] by [__init__]. *)
Record qrel : Type := Qrel {
  id_left : Z;
  col_0 : Z;
  id_right : Z;
  label : Z
}.

Record Eval : Type := { qrels : list qrel }.

Record world : Type := World {
  self : Eval;
  stdout : list string
}.

(** ** The monad *)

Definition M (A : Type) : Type := world → outcome A * world.

Definition ret {A} (a : A) : M A := λ w, (Return a, w).

Definition bind {A B} (m : M A) (f : A → M B) : M B :=
  λ w, match m w with
       | (Return a, w') => f a w'
       | (Raise e, w') => (Raise e, w')
       end.

Definition raise {A} (e : exn) : M A := λ w, (Raise e, w).

Definition self_qrels : M (list qrel) := λ w, (Return (qrels (self w)), w).

Definition print (line : string) : M unit :=
  λ w, (Return tt, {| self := self w; stdout := stdout w ++ [line] |}).

#[global] Instance M_ret : MRet M := @ret.
#[global] Instance M_bind : MBind M := λ A B f m, bind m f.

(** ** Python primitives used by the methods *)

Definition EPS : Qc := Q2Qc (1 # 1000000000000).

(** [a / b] on numbers. *)
Definition truediv (a b : Qc) : M Qc :=
  if decide (b = 0%Qc) then raise (ZeroDivisionError "division by zero")
  else mret (a / b)%Qc.

(** [l[index]] for an index produced by [enumerate]. *)
Definition getitem {A} (l : list A) (index : nat) : M A :=
  match l !! index with
  | Some x => mret x
  | None => raise (IndexError "list index out of range")
  end.

(** [l[:k]]: a negative [k] counts from the end of the list. *)
Definition slice_to {A} (l : list A) (k : Z) : list A :=
  if decide (0 ≤ k) then take (Z.to_nat k) l
  else take (Z.to_nat (Z.of_nat (length l) + k)) l.

(** [l.index(x)]: position of the first occurrence. *)
Fixpoint index_of (x : Z) (l : list Z) : option nat :=
  match l with
  | [] => None
  | y :: l' => if decide (y = x) then Some 0%nat else S <$> index_of x l'
  end.

Definition list_index (l : list Z) (x : Z) : M nat :=
  match index_of x l with
  | Some i => mret i
  | None => raise (ValueError (pretty x ++ " is not in list"))
  end.

(** [df.iloc[0]] on a filtered frame. *)
Definition iloc_0 (df : list qrel) : M qrel :=
  match df with
  | r :: _ => mret r
  | [] => raise (IndexError "single positional indexer is out-of-bounds")
  end.

(** ** The methods of [Eval] *)

Definition _hits_at_k (query_id : Z) (predict_ids : list Z) (k : Z) : M Z :=
  df ← self_qrels;
  row ← iloc_0 (filter (λ r, id_left r = query_id ∧ label r = 2) df);
  let golden := id_right row in
  let top_k_list := slice_to predict_ids k in
  if decide (golden ∈ top_k_list) then mret 1 else mret 0.

Fixpoint _avg_hits_at_k_loop (predict_ids_list : list (list Z)) (k : Z)
    (index : nat) (q_id_list : list Z) (no_of_queries cum_hak : Z) : M (Z * Z) :=
  match q_id_list with
  | [] => mret (no_of_queries, cum_hak)
  | query :: rest =>
      predict_ids ← getitem predict_ids_list index;
      if decide (Z.of_nat (length predict_ids) < k)
      then raise (ValueError "k is greater than number of predicted_id!")
      else
        let no_of_queries := no_of_queries + 1 in
        predict_ids ← getitem predict_ids_list index;
        hak ← _hits_at_k query predict_ids k;
        let cum_hak := cum_hak + hak in
        _avg_hits_at_k_loop predict_ids_list k (S index) rest no_of_queries cum_hak
  end.

Definition _avg_hits_at_k (q_id_list : list Z) (predict_ids_list : list (list Z))
    (k : Z) : M Qc :=
  '(no_of_queries, cum_hak) ← _avg_hits_at_k_loop predict_ids_list k 0 q_id_list 0 0;
  truediv (Qc_of_Z cum_hak) (Qc_of_Z no_of_queries + EPS)%Qc.

Definition _reciprocal_rank (query_id : Z) (predict_ids : list Z) : M Qc :=
  df ← self_qrels;
  row ← iloc_0 (filter (λ r, id_left r = query_id ∧ label r = 2) df);
  let golden := id_right row in
  if decide (golden ∉ predict_ids) then mret 0%Qc
  else
    i ← list_index predict_ids golden;
    let ind := Z.of_nat i + 1 in
    truediv 1%Qc (Qc_of_Z ind).

Fixpoint _mean_reciprocal_rank_loop (predict_ids_list : list (list Z))
    (index : nat) (q_id_list : list Z) (no_of_queries : Z) (cum_rr : Qc)
    : M (Z * Qc) :=
  match q_id_list with
  | [] => mret (no_of_queries, cum_rr)
  | query :: rest =>
      let no_of_queries := no_of_queries + 1 in
      predict_ids ← getitem predict_ids_list index;
      rr ← _reciprocal_rank query predict_ids;
      let cum_rr := (cum_rr + rr)%Qc in
      _mean_reciprocal_rank_loop predict_ids_list (S index) rest no_of_queries cum_rr
  end.

Definition _mean_reciprocal_rank (q_id_list : list Z)
    (predict_ids_list : list (list Z)) : M Qc :=
  '(no_of_queries, cum_rr) ← _mean_reciprocal_rank_loop predict_ids_list 0 q_id_list 0 0%Qc;
  truediv cum_rr (Qc_of_Z no_of_queries + EPS)%Qc.

Definition _prec_at_k (query_id : Z) (predict_ids : list Z) (k : Z) : M Qc :=
  df ← self_qrels;
  let golden := id_right <$> filter (λ r, id_left r = query_id) df in
  if decide (Z.of_nat (length golden) < k) then mret (-1)%Qc
  else
    let truncated_list := slice_to predict_ids k in
    let intersect :=
      elements ((list_to_set golden : gset Z) ∩ list_to_set truncated_list) in
    truediv (Qc_of_Z (Z.of_nat (length intersect))) (Qc_of_Z k + EPS)%Qc.

Definition skip_notice (query k : Z) : string :=
  "Query " ++ pretty query ++ " has less than " ++ pretty k
    ++ " golden relevant documents, skipping...".

Fixpoint _avg_prec_at_k_loop (predict_ids_list : list (list Z)) (k : Z)
    (index : nat) (q_id_list : list Z) (no_of_queries : Z) (cum_prec : Qc)
    : M (Z * Qc) :=
  match q_id_list with
  | [] => mret (no_of_queries, cum_prec)
  | query :: rest =>
      predict_ids ← getitem predict_ids_list index;
      prec ← _prec_at_k query predict_ids k;
      if decide (prec = (-1)%Qc)
      then
        _ ← print (skip_notice query k);
        _avg_prec_at_k_loop predict_ids_list k (S index) rest no_of_queries cum_prec
      else
        let no_of_queries := no_of_queries + 1 in
        let cum_prec := (cum_prec + prec)%Qc in
        _avg_prec_at_k_loop predict_ids_list k (S index) rest no_of_queries cum_prec
  end.

Definition _avg_prec_at_k (q_id_list : list Z) (predict_ids_list : list (list Z))
    (k : Z) : M (Qc * Z) :=
  '(no_of_queries, cum_prec) ← _avg_prec_at_k_loop predict_ids_list k 0 q_id_list 0 0%Qc;
  avg_prec ← truediv cum_prec (Qc_of_Z no_of_queries + EPS)%Qc;
  mret (avg_prec, no_of_queries).

(** [evaluate] prints one report.  Rendering numbers into the report text is
    the job of [str.format]; it is a parameter here. *)
Section Report.
Variable format_report : Qc → Qc → Qc → Z → Qc → Z → Qc → Z → string.

Definition evaluate (q_id_list : list Z) (predict_ids_list : list (list Z))
    : M unit :=
  mrr ← _mean_reciprocal_rank q_id_list predict_ids_list;
  hits_5 ← _avg_hits_at_k q_id_list predict_ids_list 5;
  '(prec_5, count_5) ← _avg_prec_at_k q_id_list predict_ids_list 5;
  '(prec_10, count_10) ← _avg_prec_at_k q_id_list predict_ids_list 10;
  '(prec_20, count_20) ← _avg_prec_at_k q_id_list predict_ids_list 20;
  _ ← print (format_report mrr hits_5 prec_5 count_5 prec_10 count_10
               prec_20 count_20);
  mret tt.
End Report.

(** ** Notions of the specification *)

(** [primary_relevant]: the document of the first row of the query that carries
    the primary label 2, if there is one. *)
Fixpoint primary_relevant (rows : list qrel) (query_id : Z) : option Z :=
  match rows with
  | [] => None
  | r :: rows' =>
      if decide (id_left r = query_id ∧ label r = 2) then Some (id_right r)
      else primary_relevant rows' query_id
  end.

(** [all_relevant]: the set of documents judged for the query, whatever the
    label. *)
Definition all_relevant (rows : list qrel) (query_id : Z) : gset Z :=
  list_to_set (id_right <$> filter (λ r, id_left r = query_id) rows).

(** The set of documents judged for the query with a positive label. *)
Definition relevant_set (rows : list qrel) (query_id : Z) : gset Z :=
  list_to_set (id_right <$> filter (λ r, id_left r = query_id ∧ 0 < label r) rows).

(** Number of judgment rows of the query, duplicates included. *)
Definition judged_rows (rows : list qrel) (query_id : Z) : Z :=
  Z.of_nat (length (filter (λ r, id_left r = query_id) rows)).

(** Number of judgment rows of the query with a positive label, duplicates
    included. *)
Definition relevant_rows (rows : list qrel) (query_id : Z) : Z :=
  Z.of_nat (length (filter (λ r, id_left r = query_id ∧ 0 < label r) rows)).

(** The value [_prec_at_k] returns on a table. *)
Definition prec_value (rows : list qrel) (query_id : Z) (predict_ids : list Z)
    (k : Z) : Qc :=
  match (_prec_at_k query_id predict_ids k (World {| qrels := rows |} [])).1 with
  | Return v => v
  | Raise _ => 0%Qc
  end.

Definition sum_Qc (l : list Qc) : Qc := foldr Qcplus 0%Qc l.

(** A computation that only reads the judgments table: it leaves the [Eval]
    object as it found it, and its outcome is the same in any two worlds that
    hold the same object. *)
Definition reads_only {A} (m : M A) : Prop :=
  ∀ w, self (m w).2 = self w ∧ ∀ w', self w' = self w → (m w').1 = (m w).1.

(** The results of [_prec_at_k] over a batch, each with its query. *)
Definition prec_results (rows : list qrel) (q_id_list : list Z)
    (predict_ids_list : list (list Z)) (k : Z) : list (Z * Qc) :=
  (λ qp, (qp.1, prec_value rows qp.1 qp.2 k)) <$> zip q_id_list predict_ids_list.

(** ** Example tables *)

(** Query 1 with primary document 7. *)
Definition w_primary_7 : world :=
  World {| qrels := [Qrel 1 0 7 2] |} [].

(** Query 1 with a primary document and a document judged non-relevant. *)
Definition w_label_0 : world :=
  World {| qrels := [Qrel 1 0 10 2; Qrel 1 0 11 0] |} [].

(** Query 1 with the same document judged twice. *)
Definition w_duplicate : world :=
  World {| qrels := [Qrel 1 0 10 2; Qrel 1 0 10 1] |} [].

(** Query 1 with three relevant documents; query 2 with one. *)
Definition w_two_queries : world :=
  World {| qrels := [Qrel 1 0 10 2; Qrel 1 0 11 1; Qrel 1 0 12 1;
                     Qrel 2 0 20 2] |} [].

(** ** Notions used beyond the claims *)

(** The values [_hits_at_k] and [_reciprocal_rank] return on a table (0 when
    they raise). *)
Definition hit_value (rows : list qrel) (query_id : Z) (predict_ids : list Z)
    (k : Z) : Z :=
  match (_hits_at_k query_id predict_ids k (World {| qrels := rows |} [])).1 with
  | Return v => v
  | Raise _ => 0
  end.

Definition rr_value (rows : list qrel) (query_id : Z) (predict_ids : list Z)
    : Qc :=
  match (_reciprocal_rank query_id predict_ids (World {| qrels := rows |} [])).1 with
  | Return v => v
  | Raise _ => 0%Qc
  end.

Definition sum_Z (l : list Z) : Z := foldr Z.add 0 l.

(** The hits and the reciprocal ranks of a batch, query by query. *)
Definition hit_results (rows : list qrel) (q_id_list : list Z)
    (predict_ids_list : list (list Z)) (k : Z) : list Z :=
  (λ qp, hit_value rows qp.1 qp.2 k) <$> zip q_id_list predict_ids_list.

Definition rr_results (rows : list qrel) (q_id_list : list Z)
    (predict_ids_list : list (list Z)) : list Qc :=
  (λ qp, rr_value rows qp.1 qp.2) <$> zip q_id_list predict_ids_list.

(** A computation that prints nothing and leaves the world alone, whether it
    returns or raises. *)
Definition silent {A} (m : M A) : Prop := ∀ w, (m w).2 = w.

(** A computation that keeps the [Eval] object and only adds lines at the end
    of what was printed. *)
Definition appends_only {A} (m : M A) : Prop :=
  ∀ w, self (m w).2 = self w ∧ stdout w `prefix_of` stdout (m w).2.

(** The notices [_avg_prec_at_k] prints on a batch. *)
Definition skip_notices (rows : list qrel) (q_id_list : list Z)
    (predict_ids_list : list (list Z)) (k : Z) : list string :=
  (λ qv, skip_notice qv.1 k)
    <$> filter (λ qv, qv.2 = (-1)%Qc) (prec_results rows q_id_list predict_ids_list k).

(** The number of queries [_avg_prec_at_k] scores on a batch. *)
Definition scored_count (rows : list qrel) (q_id_list : list Z)
    (predict_ids_list : list (list Z)) (k : Z) : Z :=
  Z.of_nat (length (filter (λ qv, qv.2 ≠ (-1)%Qc)
                      (prec_results rows q_id_list predict_ids_list k))).

(** The three averages of a batch, as sums over the per-query values. *)
Definition mrr_of (rows : list qrel) (q_id_list : list Z)
    (predict_ids_list : list (list Z)) : Qc :=
  (sum_Qc (rr_results rows q_id_list predict_ids_list)
   / (Qc_of_Z (Z.of_nat (length q_id_list)) + EPS))%Qc.

Definition avg_hits_of (rows : list qrel) (q_id_list : list Z)
    (predict_ids_list : list (list Z)) (k : Z) : Qc :=
  (Qc_of_Z (sum_Z (hit_results rows q_id_list predict_ids_list k))
   / (Qc_of_Z (Z.of_nat (length q_id_list)) + EPS))%Qc.

Definition avg_prec_of (rows : list qrel) (q_id_list : list Z)
    (predict_ids_list : list (list Z)) (k : Z) : Qc :=
  (sum_Qc (filter (λ qv, qv.2 ≠ (-1)%Qc)
             (prec_results rows q_id_list predict_ids_list k)).*2
   / (Qc_of_Z (scored_count rows q_id_list predict_ids_list k) + EPS))%Qc.

(** A report text made of the three counts only. *)
Definition count_report (mrr hits_5 prec_5 : Qc) (count_5 : Z) (prec_10 : Qc)
    (count_10 : Z) (prec_20 : Qc) (count_20 : Z) : string :=
  pretty count_5 ++ " " ++ pretty count_10 ++ " " ++ pretty count_20.

(** Query 1 with primary document 7, query 2 with primary document 9, and six
    further documents judged for query 1. *)
Definition w_report : world :=
  World {| qrels := [Qrel 1 0 7 2; Qrel 1 0 3 1; Qrel 1 0 4 1; Qrel 1 0 5 1;
                     Qrel 1 0 6 1; Qrel 2 0 9 2] |} ["earlier output"].

(** ** The monad: running [bind] *)

Lemma bind_Return {A B} (m : M A) (f : A → M B) w a w' :
  m w = (Return a, w') → (m ≫= f) w = f a w'.
Proof. intros H. unfold mbind, M_bind, bind. by rewrite H. Qed.

Lemma bind_Raise {A B} (m : M A) (f : A → M B) w e w' :
  m w = (Raise e, w') → (m ≫= f) w = (Raise e, w').
Proof. intros H. unfold mbind, M_bind, bind. by rewrite H. Qed.

Lemma bind_self_qrels {B} (f : list qrel → M B) w :
  (self_qrels ≫= f) w = f (qrels (self w)) w.
Proof. done. Qed.

Lemma world_eta w : World (self w) (stdout w) = w.
Proof. by destruct w. Qed.

(** ** Arithmetic of [EPS] *)

Lemma EPS_pos : (0 < EPS)%Qc.
Proof. done. Qed.

Lemma EPS_lt_1 : (EPS < 1)%Qc.
Proof. done. Qed.

(** [EPS] is not an integer, so no integer plus [EPS] is an integer. *)
Lemma Z_plus_EPS_not_Z (a b : Z) : (Qc_of_Z a + EPS)%Qc ≠ Qc_of_Z b.
Proof.
  intros H.
  assert (HE : EPS = Qc_of_Z (b - a)).
  { rewrite Z2Qc_inj_sub, <-H. ring. }
  pose proof EPS_pos as Hp. pose proof EPS_lt_1 as Hl.
  rewrite HE in Hp, Hl.
  rewrite <-Z2Qc_inj_0 in Hp. rewrite <-Z2Qc_inj_1 in Hl.
  apply Z2Qc_inj_lt in Hp, Hl. lia.
Qed.

Lemma Z_plus_EPS_nonzero (a : Z) : (Qc_of_Z a + EPS)%Qc ≠ 0%Qc.
Proof. rewrite <-Z2Qc_inj_0. apply Z_plus_EPS_not_Z. Qed.

Lemma truediv_EPS (c : Qc) (n : Z) w :
  truediv c (Qc_of_Z n + EPS)%Qc w = (Return (c / (Qc_of_Z n + EPS))%Qc, w).
Proof.
  unfold truediv. destruct (decide _) as [H|H]; [|done].
  by apply Z_plus_EPS_nonzero in H.
Qed.

Lemma Z_plus_EPS_pos (k : Z) : 0 ≤ k → (0 < Qc_of_Z k + EPS)%Qc.
Proof.
  intros Hk. apply Qcplus_nonneg_pos; [|apply EPS_pos].
  rewrite <-Z2Qc_inj_0. by apply (proj1 (Z2Qc_inj_le 0 k)).
Qed.

(** For 0 <= k, a quotient of a natural number by k + [EPS] is not negative,
    so it is not the sentinel -1. *)
Lemma div_EPS_nonneg (n k : Z) :
  0 ≤ n → 0 ≤ k → (0 ≤ Qc_of_Z n / (Qc_of_Z k + EPS))%Qc.
Proof.
  intros Hn Hk. unfold Qcdiv. apply Qcmult_nonneg_nonneg.
  - rewrite <-Z2Qc_inj_0. by apply (proj1 (Z2Qc_inj_le 0 n)).
  - by apply Qclt_le_weak, Qcinv_pos, Z_plus_EPS_pos.
Qed.

Lemma sentinel_negative (v : Qc) : (0 ≤ v)%Qc → v ≠ (-1)%Qc.
Proof. intros Hv ->. by apply Qcle_not_lt in Hv. Qed.

(** ** Python primitives *)

Lemma slice_to_nonneg {A} (l : list A) (k : Z) :
  0 ≤ k → slice_to l k = take (Z.to_nat k) l.
Proof. intros. unfold slice_to. by rewrite decide_True. Qed.

Lemma slice_to_length_le {A} (l : list A) (k : Z) :
  0 ≤ k → Z.of_nat (length (slice_to l k)) ≤ k.
Proof. intros. rewrite slice_to_nonneg, length_take by done. lia. Qed.

Lemma slice_to_all {A} (l : list A) (k : Z) :
  Z.of_nat (length l) ≤ k → slice_to l k = l.
Proof.
  intros. rewrite slice_to_nonneg by lia. apply take_ge. lia.
Qed.

Lemma index_of_first (x : Z) (pre post : list Z) :
  x ∉ pre → index_of x (pre ++ x :: post) = Some (length pre).
Proof.
  induction pre as [|y pre IH]; simpl; intros Hx.
  - by rewrite decide_True.
  - apply not_elem_of_cons in Hx as [Hne Hx].
    rewrite decide_False by done. by rewrite IH.
Qed.

Lemma index_of_None (x : Z) (l : list Z) : index_of x l = None ↔ x ∉ l.
Proof.
  induction l as [|y l IH]; simpl.
  - split; [intros _; apply not_elem_of_nil | done].
  - rewrite not_elem_of_cons. destruct (decide (y = x)) as [->|Hne].
    + split; [done | intros [? _]; done].
    + rewrite fmap_None, IH. split; [intros ?; split; congruence | by intros [_ ?]].
Qed.

(** The filter-and-[iloc[0]] of the source finds [primary_relevant]. *)
Lemma primary_row (rows : list qrel) (query_id : Z) :
  primary_relevant rows query_id
  = id_right <$> head (filter (λ r, id_left r = query_id ∧ label r = 2) rows).
Proof.
  induction rows as [|r rows IH]; [done|]. simpl.
  rewrite filter_cons. by destruct (decide _).
Qed.

(** ** Running the per-query methods *)

Lemma hits_at_k_run (query_id : Z) (predict_ids : list Z) (k : Z) w :
  _hits_at_k query_id predict_ids k w =
  match primary_relevant (qrels (self w)) query_id with
  | Some g => (Return (if decide (g ∈ slice_to predict_ids k) then 1 else 0), w)
  | None => (Raise (IndexError "single positional indexer is out-of-bounds"), w)
  end.
Proof.
  unfold _hits_at_k. rewrite bind_self_qrels, primary_row.
  destruct (filter _ _) as [|r df]; simpl.
  - done.
  - erewrite bind_Return by done. by destruct (decide _).
Qed.

Lemma reciprocal_rank_run (query_id : Z) (predict_ids : list Z) w :
  _reciprocal_rank query_id predict_ids w =
  match primary_relevant (qrels (self w)) query_id with
  | Some g =>
      match index_of g predict_ids with
      | None => (Return 0%Qc, w)
      | Some i => (Return (1 / Qc_of_Z (Z.of_nat i + 1))%Qc, w)
      end
  | None => (Raise (IndexError "single positional indexer is out-of-bounds"), w)
  end.
Proof.
  unfold _reciprocal_rank. rewrite bind_self_qrels, primary_row.
  destruct (filter _ _) as [|r df]; simpl; [done|].
  erewrite bind_Return by done.
  destruct (index_of (id_right r) predict_ids) as [i|] eqn:Hi.
  - rewrite decide_False.
    2:{ intros Hn. apply index_of_None in Hn. congruence. }
    unfold list_index. rewrite Hi. erewrite bind_Return by done.
    unfold truediv. rewrite decide_False; [done|].
    rewrite <-Z2Qc_inj_0. intros ?%Z2Qc_inj. lia.
  - rewrite decide_True; [done|]. by apply index_of_None.
Qed.

Lemma prec_at_k_formula (query_id : Z) (predict_ids : list Z) (k : Z) w :
  _prec_at_k query_id predict_ids k w =
  (Return
     (if decide (judged_rows (qrels (self w)) query_id < k) then (-1)%Qc
      else (Qc_of_Z (Z.of_nat (size (all_relevant (qrels (self w)) query_id
                                       ∩ list_to_set (slice_to predict_ids k))))
            / (Qc_of_Z k + EPS))%Qc), w).
Proof.
  unfold _prec_at_k, judged_rows, all_relevant. rewrite bind_self_qrels.
  rewrite length_fmap. destruct (decide _); [done|].
  by rewrite truediv_EPS.
Qed.

Lemma prec_at_k_run (query_id : Z) (predict_ids : list Z) (k : Z) w :
  _prec_at_k query_id predict_ids k w =
  (Return (prec_value (qrels (self w)) query_id predict_ids k), w).
Proof.
  unfold prec_value. by rewrite !prec_at_k_formula.
Qed.

Lemma prec_value_formula (rows : list qrel) (query_id : Z) (predict_ids : list Z) (k : Z) :
  prec_value rows query_id predict_ids k =
  if decide (judged_rows rows query_id < k) then (-1)%Qc
  else (Qc_of_Z (Z.of_nat (size (all_relevant rows query_id
                                   ∩ list_to_set (slice_to predict_ids k))))
        / (Qc_of_Z k + EPS))%Qc.
Proof. unfold prec_value. by rewrite prec_at_k_formula. Qed.

Lemma prec_value_sentinel (rows : list qrel) (query_id : Z) (predict_ids : list Z) (k : Z) :
  0 ≤ k →
  prec_value rows query_id predict_ids k = (-1)%Qc ↔ judged_rows rows query_id < k.
Proof.
  intros Hk. rewrite prec_value_formula. destruct (decide _) as [H|H]; [done|].
  split; [|done]. intros E.
  by apply sentinel_negative in E; [|apply div_EPS_nonneg; lia].
Qed.

(** ** The batch loops *)

(** The loops read [predict_ids_list[index]]; dropping the head of the list
    shifts every index by one. *)
Lemma getitem_cons {A} (x : A) (l : list A) (index : nat) :
  getitem (x :: l) (S index) = getitem l index.
Proof. done. Qed.

Lemma bind_ext {A B} (m m' : M A) (f g : A → M B) w :
  m w = m' w → (∀ a w', f a w' = g a w') → (m ≫= f) w = (m' ≫= g) w.
Proof.
  intros Hm Hf. unfold mbind, M_bind, bind. rewrite Hm.
  destruct (m' w) as [[a|e] w']; [apply Hf | done].
Qed.

Lemma avg_hits_loop_shift p0 ps k index qs n c w :
  _avg_hits_at_k_loop (p0 :: ps) k (S index) qs n c w
  = _avg_hits_at_k_loop ps k index qs n c w.
Proof.
  revert index n c w. induction qs as [|q qs IH]; intros index n c w; [done|].
  simpl. apply bind_ext; [done|]. intros p w1.
  destruct (decide _); [done|].
  apply bind_ext; [done|]. intros p' w2.
  apply bind_ext; [done|]. intros hak w3. apply IH.
Qed.

Lemma mean_reciprocal_rank_loop_shift p0 ps index qs n c w :
  _mean_reciprocal_rank_loop (p0 :: ps) (S index) qs n c w
  = _mean_reciprocal_rank_loop ps index qs n c w.
Proof.
  revert index n c w. induction qs as [|q qs IH]; intros index n c w; [done|].
  simpl. apply bind_ext; [done|]. intros p w1.
  apply bind_ext; [done|]. intros rr w2. apply IH.
Qed.

Lemma avg_prec_loop_shift p0 ps k index qs n c w :
  _avg_prec_at_k_loop (p0 :: ps) k (S index) qs n c w
  = _avg_prec_at_k_loop ps k index qs n c w.
Proof.
  revert index n c w. induction qs as [|q qs IH]; intros index n c w; [done|].
  simpl. apply bind_ext; [done|]. intros p w1.
  apply bind_ext; [done|]. intros prec w2.
  destruct (decide _); [|apply IH].
  apply bind_ext; [done|]. intros [] w3. apply IH.
Qed.

(** One turn of each loop, on a batch whose first prediction list is [p]. *)
Lemma avg_hits_loop_cons p ps k q qs n c w :
  _avg_hits_at_k_loop (p :: ps) k 0 (q :: qs) n c w =
  if decide (Z.of_nat (length p) < k)
  then (Raise (ValueError "k is greater than number of predicted_id!"), w)
  else match primary_relevant (qrels (self w)) q with
       | Some g =>
           _avg_hits_at_k_loop ps k 0 qs (n + 1)
             (c + (if decide (g ∈ slice_to p k) then 1 else 0)) w
       | None =>
           (Raise (IndexError "single positional indexer is out-of-bounds"), w)
       end.
Proof.
  simpl. erewrite bind_Return by done.
  destruct (decide _); [done|].
  erewrite bind_Return by done.
  pose proof (hits_at_k_run q p k w) as Hh.
  destruct (primary_relevant _ _) as [g|].
  - erewrite bind_Return by exact Hh. apply avg_hits_loop_shift.
  - by erewrite bind_Raise by exact Hh.
Qed.

Lemma avg_prec_loop_cons p ps k q qs n c w :
  _avg_prec_at_k_loop (p :: ps) k 0 (q :: qs) n c w =
  let prec := prec_value (qrels (self w)) q p k in
  if decide (prec = (-1)%Qc)
  then _avg_prec_at_k_loop ps k 0 qs n c
         (World (self w) (stdout w ++ [skip_notice q k]))
  else _avg_prec_at_k_loop ps k 0 qs (n + 1) (c + prec)%Qc w.
Proof.
  simpl. erewrite bind_Return by done.
  erewrite bind_Return by apply prec_at_k_run.
  destruct (decide _).
  - erewrite bind_Return by done. apply avg_prec_loop_shift.
  - apply avg_prec_loop_shift.
Qed.

(** ** Sets *)

Lemma size_list_to_set_le (l : list Z) :
  (size (list_to_set l : gset Z) ≤ length l)%nat.
Proof.
  induction l as [|x l IH].
  - by rewrite list_to_set_nil, size_empty.
  - rewrite list_to_set_cons, size_union_alt, size_singleton. simpl.
    assert (Hs : (size (list_to_set l ∖ {[x]} : gset Z) ≤ size (list_to_set l : gset Z))%nat)
      by (by apply subseteq_size, subseteq_difference_l).
    lia.
Qed.

Lemma size_inter_slice_le (X : gset Z) (l : list Z) (k : Z) :
  0 ≤ k → Z.of_nat (size (X ∩ list_to_set (slice_to l k))) ≤ k.
Proof.
  intros Hk.
  assert (Hs : (size (X ∩ list_to_set (slice_to l k))
                ≤ size (list_to_set (slice_to l k) : gset Z))%nat)
    by apply subseteq_size, intersection_subseteq_r.
  pose proof (size_list_to_set_le (slice_to l k)).
  pose proof (slice_to_length_le l k Hk). lia.
Qed.

(** ** Comparing concrete results *)

Lemma Return_Qc_eq (a b : Qc) (w : world) :
  (a == b)%Q → (Return a, w) = (Return b, w).
Proof. intros H. by rewrite (Qc_is_canon a b H). Qed.

(** ** reciprocal_rank *)

(** C1: for a query whose primary-relevant document is [g], [_reciprocal_rank]
    returns 0 when [g] is not among the predictions, and 1/(position+1) when
    the first occurrence of [g] is at zero-based index [position]; the top slot
    gives 1 and the second slot 1/2. *)
Theorem reciprocal_rank_value w query_id predict_ids g :
  primary_relevant (qrels (self w)) query_id = Some g →
  (g ∉ predict_ids → _reciprocal_rank query_id predict_ids w = (Return 0%Qc, w))
  ∧ (∀ pre post, predict_ids = pre ++ g :: post → g ∉ pre →
       _reciprocal_rank query_id predict_ids w
       = (Return (1 / Qc_of_Z (Z.of_nat (length pre) + 1))%Qc, w))
  ∧ (∀ post, predict_ids = g :: post →
       _reciprocal_rank query_id predict_ids w = (Return 1%Qc, w))
  ∧ (∀ x post, predict_ids = x :: g :: post → x ≠ g →
       _reciprocal_rank query_id predict_ids w = (Return (1 / 2)%Qc, w)).
Proof.
  intros Hg.
  assert (Hpos : ∀ pre post, predict_ids = pre ++ g :: post → g ∉ pre →
            _reciprocal_rank query_id predict_ids w
            = (Return (1 / Qc_of_Z (Z.of_nat (length pre) + 1))%Qc, w)).
  { intros pre post -> Hpre.
    by rewrite reciprocal_rank_run, Hg, index_of_first. }
  split; [|split; [exact Hpos|split]].
  - intros Habs. rewrite reciprocal_rank_run, Hg.
    apply index_of_None in Habs. by rewrite Habs.
  - intros post Hp. rewrite (Hpos [] post Hp) by apply not_elem_of_nil.
    by apply Return_Qc_eq.
  - intros x post Hp Hx. rewrite (Hpos [x] post Hp).
    + by apply Return_Qc_eq.
    + by intros ->%list_elem_of_singleton.
Qed.

Lemma reciprocal_rank_value_witness :
  _reciprocal_rank 1 [3; 7; 9] w_primary_7 = (Return (1 / 2)%Qc, w_primary_7).
Proof.
  destruct (reciprocal_rank_value w_primary_7 1 [3; 7; 9] 7 eq_refl)
    as (_ & _ & _ & H).
  apply (H 3 [9]); [reflexivity | lia].
Defined.

(** ** precision_at_k *)

(** When every judgment row of the query carries a positive label, the
    documents [_prec_at_k] intersects with are exactly the relevant set. *)
Lemma filter_positive_labels (rows : list qrel) (query_id : Z) :
  (∀ r, r ∈ rows → id_left r = query_id → 0 < label r) →
  filter (λ r, id_left r = query_id) rows
  = filter (λ r, id_left r = query_id ∧ 0 < label r) rows.
Proof.
  intros Hpos. induction rows as [|r rows IH]; [done|].
  rewrite !filter_cons.
  assert (Hr : id_left r = query_id → 0 < label r)
    by (intros; apply Hpos; [left|done]).
  rewrite IH by (intros; apply Hpos; [by right|done]).
  destruct (decide (id_left r = query_id)) as [Hq|Hq].
  - by rewrite decide_True by auto.
  - by rewrite decide_False by (by intros [? _]).
Qed.

Lemma all_relevant_positive_labels (rows : list qrel) (query_id : Z) :
  (∀ r, r ∈ rows → id_left r = query_id → 0 < label r) →
  all_relevant rows query_id = relevant_set rows query_id.
Proof.
  intros Hpos. unfold all_relevant, relevant_set.
  by rewrite filter_positive_labels.
Qed.

Lemma judged_rows_positive_labels (rows : list qrel) (query_id : Z) :
  (∀ r, r ∈ rows → id_left r = query_id → 0 < label r) →
  judged_rows rows query_id = relevant_rows rows query_id.
Proof.
  intros Hpos. unfold judged_rows, relevant_rows.
  by rewrite filter_positive_labels.
Qed.

Lemma positive_rows_le_rows (rows : list qrel) (query_id : Z) :
  (length (filter (λ r, id_left r = query_id ∧ (0 < label r)%Z) rows)
   ≤ length (filter (λ r, id_left r = query_id) rows))%nat.
Proof.
  induction rows as [|r rows IH]; [done|]. rewrite !filter_cons.
  destruct (decide (id_left r = query_id)) as [Hq|Hq];
    destruct (decide (id_left r = query_id ∧ 0 < label r)) as [Hl|Hl];
    simpl; lia.
Qed.

Lemma relevant_set_size_le_rows (rows : list qrel) (query_id : Z) :
  Z.of_nat (size (relevant_set rows query_id)) ≤ judged_rows rows query_id.
Proof.
  unfold relevant_set, judged_rows.
  pose proof (size_list_to_set_le
    (id_right <$> filter (λ r, id_left r = query_id ∧ 0 < label r) rows)) as H1.
  rewrite length_fmap in H1.
  pose proof (positive_rows_le_rows rows query_id). lia.
Qed.

(** On a table whose rows for the query all carry a positive label, the rule
    of C2 holds: with at least [k] relevant documents the result is
    |R ∩ predictions[:k]| / (k + EPS). *)
Lemma prec_at_k_positive_labels w query_id predict_ids k :
  (∀ r, r ∈ qrels (self w) → id_left r = query_id → 0 < label r) →
  k ≤ Z.of_nat (size (relevant_set (qrels (self w)) query_id)) →
  _prec_at_k query_id predict_ids k w =
  (Return (Qc_of_Z (Z.of_nat (size (relevant_set (qrels (self w)) query_id
                                      ∩ list_to_set (slice_to predict_ids k))))
           / (Qc_of_Z k + EPS))%Qc, w).
Proof.
  intros Hpos Hk. rewrite prec_at_k_formula.
  pose proof (relevant_set_size_le_rows (qrels (self w)) query_id).
  rewrite decide_False by lia.
  by rewrite all_relevant_positive_labels.
Qed.

(** C2: the docstring of [_prec_at_k] counts the documents labelled 1 and 2,
    but the method never looks at the label.  On [w_label_0] the relevant set
    of query 1 is {10}, of size 1 >= k = 1; the prediction [11] is judged
    non-relevant, so the claimed precision is 0 / (1 + EPS) = 0, yet the
    method returns 1 / (1 + EPS). *)
Theorem prec_at_k_counts_label_0 :
  let rows := qrels (self w_label_0) in
  relevant_set rows 1 = {[ 10 ]}
  ∧ 1 ≤ Z.of_nat (size (relevant_set rows 1))
  ∧ (Qc_of_Z (Z.of_nat (size (relevant_set rows 1 ∩ list_to_set (slice_to [11] 1))))
     / (Qc_of_Z 1 + EPS))%Qc = 0%Qc
  ∧ _prec_at_k 1 [11] 1 w_label_0 = (Return (1 / (1 + EPS))%Qc, w_label_0)
  ∧ (1 / (1 + EPS))%Qc ≠ 0%Qc.
Proof.
  simpl. split; [|split; [|split; [|split]]].
  - by vm_compute.
  - by vm_compute.
  - by apply Qc_is_canon.
  - rewrite prec_at_k_formula. by apply Return_Qc_eq.
  - by intros ?%(f_equal this).
Qed.

(** C4, as stated, fails: on [w_duplicate] query 1 has one relevant document
    (10, judged twice), fewer than k = 2, and [_prec_at_k] does not return the
    sentinel: it counts the two rows and returns 0. *)
Lemma prec_at_k_sentinel_counterexample :
  let rows := qrels (self w_duplicate) in
  all_relevant rows 1 = {[ 10 ]}
  ∧ relevant_set rows 1 = {[ 10 ]}
  ∧ Z.of_nat (size (all_relevant rows 1)) < 2
  ∧ _prec_at_k 1 [] 2 w_duplicate = (Return 0%Qc, w_duplicate)
  ∧ 0%Qc ≠ (-1)%Qc.
Proof.
  simpl. split; [|split; [|split; [|split]]].
  - by vm_compute.
  - by vm_compute.
  - by vm_compute.
  - rewrite prec_at_k_formula. by apply Return_Qc_eq.
  - by intros ?%(f_equal this).
Qed.

(** C4 (amended): on a table where every row of the query carries a positive
    label, for every prediction list and every k >= 0, [_prec_at_k] returns
    without raising, and the value is the sentinel -1 exactly when the query
    has fewer than k relevant judgment rows, a document judged twice counting
    twice; the predictions play no part.  A value of the other branch is not
    negative, which is why it cannot be the sentinel. *)
Theorem prec_at_k_sentinel_iff w query_id predict_ids k :
  (∀ r, r ∈ qrels (self w) → id_left r = query_id → 0 < label r) →
  0 ≤ k →
  ∃ v, _prec_at_k query_id predict_ids k w = (Return v, w)
       ∧ (v = (-1)%Qc ↔ relevant_rows (qrels (self w)) query_id < k).
Proof.
  intros Hpos Hk.
  exists (prec_value (qrels (self w)) query_id predict_ids k).
  split; [apply prec_at_k_run|].
  rewrite <-judged_rows_positive_labels by done. by apply prec_value_sentinel.
Qed.

Lemma prec_at_k_sentinel_iff_witness :
  ∃ v, _prec_at_k 1 [10; 10] 2 w_duplicate = (Return v, w_duplicate)
       ∧ (v = (-1)%Qc ↔ relevant_rows (qrels (self w_duplicate)) 1 < 2).
Proof.
  apply (prec_at_k_sentinel_iff w_duplicate 1 [10; 10] 2); [|lia].
  intros r Hr Hq. simpl in Hr.
  repeat (apply elem_of_cons in Hr as [->|Hr]; [simpl; lia|]).
  by apply elem_of_nil in Hr.
Defined.

(** C10, as stated, fails for a negative k: [predict_ids[:-1]] drops the last
    prediction, the sentinel branch is not taken, and the result 1 / (-1 + EPS)
    is negative. *)
Lemma prec_at_k_range_counterexample :
  ¬ judged_rows (qrels (self w_primary_7)) 1 < -1
  ∧ _prec_at_k 1 [7; 8] (-1) w_primary_7
    = (Return (1 / (-1 + EPS))%Qc, w_primary_7)
  ∧ (1 / (-1 + EPS) < 0)%Qc.
Proof.
  split; [|split].
  - by vm_compute.
  - rewrite prec_at_k_formula. by apply Return_Qc_eq.
  - done.
Qed.

Lemma Qcdiv_le_mono_pos (a b c : Qc) : (0 < c → a ≤ b → a / c ≤ b / c)%Qc.
Proof.
  intros Hc Hab. unfold Qcdiv. apply Qcmult_le_mono_nonneg_r; [|done].
  apply Qclt_le_weak. by apply Qcinv_pos.
Qed.

(** C10 (amended): whenever [_prec_at_k] does not take the sentinel branch
    and 0 <= k, its result lies in [0, k/(k+EPS)]; it is not negative, so it
    is not -1 and the test against -1 in [_avg_prec_at_k] does not take it for
    the sentinel. *)
Theorem prec_at_k_range w query_id predict_ids k :
  ¬ judged_rows (qrels (self w)) query_id < k →
  0 ≤ k →
  ∃ v, _prec_at_k query_id predict_ids k w = (Return v, w)
       ∧ (0 ≤ v ≤ Qc_of_Z k / (Qc_of_Z k + EPS))%Qc
       ∧ v ≠ (-1)%Qc.
Proof.
  intros Hrows Hk.
  exists (prec_value (qrels (self w)) query_id predict_ids k).
  split; [apply prec_at_k_run|].
  rewrite prec_value_formula, decide_False by done.
  assert (H0 : (0 ≤ Qc_of_Z (Z.of_nat (size (all_relevant (qrels (self w)) query_id
                                     ∩ list_to_set (slice_to predict_ids k))))
                    / (Qc_of_Z k + EPS))%Qc)
    by (apply div_EPS_nonneg; lia).
  split; [split; [done|]|by apply sentinel_negative].
  apply Qcdiv_le_mono_pos; [by apply Z_plus_EPS_pos|].
  apply (proj1 (Z2Qc_inj_le _ _)). by apply size_inter_slice_le.
Qed.

Lemma prec_at_k_range_witness :
  ∃ v, _prec_at_k 1 [10; 5; 12; 9] 3 w_two_queries = (Return v, w_two_queries)
       ∧ (0 ≤ v ≤ Qc_of_Z 3 / (Qc_of_Z 3 + EPS))%Qc
       ∧ v ≠ (-1)%Qc.
Proof.
  apply (prec_at_k_range w_two_queries 1 [10; 5; 12; 9] 3); [|lia].
  vm_compute. discriminate.
Defined.

(** ** The batch averages *)

Lemma Qcdiv_0_l (x : Qc) : (0 / x)%Qc = 0%Qc.
Proof. apply Qcmult_0_l. Qed.

(** C8: on the empty batch the three averages are 0, and the count of
    [_avg_prec_at_k] is 0: the denominator 0 + EPS is not zero, so the
    division neither raises nor is undefined. *)
Theorem empty_batch_averages w predict_ids_list k :
  _avg_hits_at_k [] predict_ids_list k w = (Return 0%Qc, w)
  ∧ _mean_reciprocal_rank [] predict_ids_list w = (Return 0%Qc, w)
  ∧ _avg_prec_at_k [] predict_ids_list k w = (Return (0%Qc, 0), w).
Proof.
  unfold _avg_hits_at_k, _mean_reciprocal_rank, _avg_prec_at_k. simpl.
  split; [|split].
  - erewrite bind_Return by done. simpl.
    by rewrite truediv_EPS, Z2Qc_inj_0, Qcdiv_0_l.
  - erewrite bind_Return by done. simpl.
    by rewrite truediv_EPS, Qcdiv_0_l.
  - erewrite bind_Return by done. simpl.
    erewrite bind_Return by apply truediv_EPS.
    by rewrite Qcdiv_0_l.
Qed.

(** The loop of [_avg_prec_at_k]: the skipped queries leave both accumulators
    alone and print one notice each, the others add one to the count and their
    precision to the sum. *)
Lemma avg_prec_loop_run k qs : ∀ ps n c w,
  (length qs ≤ length ps)%nat →
  let results := prec_results (qrels (self w)) qs ps k in
  let scored := filter (λ qv, qv.2 ≠ (-1)%Qc) results in
  let skipped := filter (λ qv, qv.2 = (-1)%Qc) results in
  _avg_prec_at_k_loop ps k 0 qs n c w =
  (Return (n + Z.of_nat (length scored), (c + sum_Qc scored.*2)%Qc),
   World (self w) (stdout w ++ ((λ qv, skip_notice qv.1 k) <$> skipped))).
Proof.
  induction qs as [|q qs IH]; intros ps n c w Hlen.
  - simpl. unfold prec_results. simpl.
    rewrite Z.add_0_r, Qcplus_0_r, app_nil_r, world_eta. done.
  - destruct ps as [|p ps]; [simpl in Hlen; lia|].
    rewrite avg_prec_loop_cons. cbv zeta.
    unfold prec_results. simpl zip. rewrite fmap_cons, !filter_cons. simpl.
    fold (prec_results (qrels (self w)) qs ps k).
    destruct (decide (prec_value (qrels (self w)) q p k = (-1)%Qc)) as [Hs|Hs].
    + rewrite decide_False by (by intros ?).
      rewrite IH by (simpl in Hlen; lia). simpl.
      by rewrite <-app_assoc.
    + rewrite decide_True by done.
      rewrite IH by (simpl in Hlen; lia). simpl.
      f_equal. f_equal. f_equal; [lia|]. symmetry. apply Qcplus_assoc.
Qed.




(** ** hit_at_k and the abort of the batch *)

Lemma primary_relevant_None (rows : list qrel) (query_id : Z) :
  primary_relevant rows query_id = None
  ↔ ∀ r, r ∈ rows → id_left r = query_id → label r ≠ 2.
Proof.
  induction rows as [|r rows IH]; simpl.
  - split; [|done]. by intros _ r ?%elem_of_nil.
  - destruct (decide _) as [[Hq Hl]|Hn].
    + split; [done|]. intros H. destruct (H r); [left|done|done].
    + rewrite IH. split.
      * intros H r' [->|Hin]%elem_of_cons Hq; [tauto | by apply H].
      * intros H r' Hin. apply H. by right.
Qed.

(** A batch with a prediction list shorter than k never returns from the loop
    of [_avg_hits_at_k]: it raises, and prints nothing. *)
Lemma avg_hits_loop_short_raises k ps : ∀ qs n c w,
  length qs = length ps →
  Exists (λ p, Z.of_nat (length p) < k) ps →
  ∃ e, _avg_hits_at_k_loop ps k 0 qs n c w = (Raise e, w).
Proof.
  induction ps as [|p ps IH]; intros qs n c w Hlen Hex.
  - by apply Exists_nil in Hex.
  - destruct qs as [|q qs]; [done|]. rewrite avg_hits_loop_cons.
    destruct (decide _) as [Hp|Hp]; [by eexists|].
    destruct (primary_relevant _ _) as [g|]; [|by eexists].
    apply IH; [by injection Hlen|].
    apply Exists_cons in Hex as [?|?]; done.
Qed.

(** The length check comes first: the loop raises [ValueError] at the first
    short prediction list as soon as the queries whose list is long enough
    have a primary row. *)
Lemma avg_hits_loop_short_ValueError k rows ps : ∀ qs n c w,
  qrels (self w) = rows →
  length qs = length ps →
  Exists (λ p, Z.of_nat (length p) < k) ps →
  (∀ q p, (q, p) ∈ zip qs ps → k ≤ Z.of_nat (length p) →
          is_Some (primary_relevant rows q)) →
  _avg_hits_at_k_loop ps k 0 qs n c w
  = (Raise (ValueError "k is greater than number of predicted_id!"), w).
Proof.
  induction ps as [|p ps IH]; intros qs n c w Hw Hlen Hex Hprim.
  - by apply Exists_nil in Hex.
  - destruct qs as [|q qs]; [done|]. rewrite avg_hits_loop_cons.
    destruct (decide _) as [Hp|Hp]; [done|].
    destruct (Hprim q p) as [g Hg]; [left | lia |].
    rewrite Hw, Hg. apply IH; [done | by injection Hlen | |].
    + apply Exists_cons in Hex as [?|?]; done.
    + intros q' p' Hin. apply Hprim. by right.
Qed.

(** C5: in a batch (one prediction list per query) where some prediction list
    has fewer than k entries, [_avg_hits_at_k] raises the [ValueError] of the
    length check and returns no average; nothing is printed.  The check of a
    query comes before its hit is computed: a primary row is only needed for
    the queries whose list has at least k entries. *)
Theorem avg_hits_at_k_short_list_aborts w q_id_list predict_ids_list k :
  length q_id_list = length predict_ids_list →
  (∃ p, p ∈ predict_ids_list ∧ Z.of_nat (length p) < k) →
  (∀ q p, (q, p) ∈ zip q_id_list predict_ids_list → k ≤ Z.of_nat (length p) →
          is_Some (primary_relevant (qrels (self w)) q)) →
  ∃ e, _avg_hits_at_k q_id_list predict_ids_list k w = (Raise e, w)
       ∧ is_ValueError e = true
       ∧ e = ValueError "k is greater than number of predicted_id!".
Proof.
  intros Hlen Hshort Hprim.
  exists (ValueError "k is greater than number of predicted_id!").
  split; [|done].
  unfold _avg_hits_at_k. apply bind_Raise.
  eapply avg_hits_loop_short_ValueError; [done | done | | done].
  by apply Exists_exists.
Qed.

Lemma avg_hits_at_k_short_list_aborts_witness :
  ∃ e, _avg_hits_at_k [1; 3; 2] [[10; 11]; [5]; [20; 21]] 2 w_two_queries
       = (Raise e, w_two_queries)
       ∧ is_ValueError e = true
       ∧ e = ValueError "k is greater than number of predicted_id!".
Proof.
  apply (avg_hits_at_k_short_list_aborts w_two_queries [1; 3; 2]
           [[10; 11]; [5]; [20; 21]] 2).
  - reflexivity.
  - exists [5]. split; [|simpl; lia]. right; left.
  - intros q p Hin Hk. simpl in Hin.
    apply elem_of_cons in Hin as [Hin|Hin];
      [injection Hin as -> ->; by eexists|].
    apply elem_of_cons in Hin as [Hin|Hin];
      [injection Hin as -> ->; simpl in Hk; lia|].
    apply elem_of_cons in Hin as [Hin|Hin];
      [injection Hin as -> ->; by eexists|].
    by apply elem_of_nil in Hin.
Defined.

(** C7, as stated, fails for a direct call: [_hits_at_k] has no length check.
    With one prediction and k = 5 it returns 1. *)
Lemma hits_at_k_short_list_counterexample :
  Z.of_nat (length [7]) < 5
  ∧ _hits_at_k 1 [7] 5 w_primary_7 = (Return 1, w_primary_7).
Proof. split; [simpl; lia | reflexivity]. Qed.

(** C7 (amended): on a prediction list shorter than k, a batch call of
    [_avg_hits_at_k] raises and returns no value; a direct call of
    [_hits_at_k] makes no length check: it returns 1 or 0 according to whether
    the primary document is among the predictions there are, and raises only
    when the query has no primary row. *)
Theorem hits_at_k_short_list w query_id predict_ids k :
  Z.of_nat (length predict_ids) < k →
  _hits_at_k query_id predict_ids k w =
  match primary_relevant (qrels (self w)) query_id with
  | Some g => (Return (if decide (g ∈ predict_ids) then 1 else 0), w)
  | None => (Raise (IndexError "single positional indexer is out-of-bounds"), w)
  end
  ∧ ∀ q_id_list predict_ids_list,
      length q_id_list = length predict_ids_list →
      predict_ids ∈ predict_ids_list →
      ∃ e, _avg_hits_at_k q_id_list predict_ids_list k w = (Raise e, w).
Proof.
  intros Hshort. split.
  - rewrite hits_at_k_run, slice_to_all by lia. done.
  - intros qs ps Hlen Hin.
    destruct (avg_hits_loop_short_raises k ps qs 0 0 w Hlen) as [e He].
    { apply Exists_exists. by exists predict_ids. }
    exists e. unfold _avg_hits_at_k. by apply bind_Raise.
Qed.

Lemma hits_at_k_short_list_witness :
  _hits_at_k 1 [7] 5 w_primary_7 = (Return 1, w_primary_7)
  ∧ ∃ e, _avg_hits_at_k [1; 1] [[3; 4; 5; 6; 7]; [7]] 5 w_primary_7
         = (Raise e, w_primary_7).
Proof.
  destruct (hits_at_k_short_list w_primary_7 1 [7] 5) as [H1 H2].
  - simpl. lia.
  - split; [exact H1|]. apply H2; [reflexivity|]. right; left.
Defined.

(** ** Queries without a primary row *)

Lemma mean_reciprocal_rank_loop_no_primary ps q w :
  primary_relevant (qrels (self w)) q = None →
  ∀ qs index n c, q ∈ qs →
  ∃ e, _mean_reciprocal_rank_loop ps index qs n c w = (Raise e, w)
       ∧ is_LookupError e = true.
Proof.
  intros Hq. induction qs as [|q' qs IH]; intros index n c Hin.
  - by apply elem_of_nil in Hin.
  - simpl. unfold getitem. destruct (ps !! index) as [p|].
    2:{ eexists. split; [by apply bind_Raise|done]. }
    erewrite bind_Return by done.
    pose proof (reciprocal_rank_run q' p w) as Hrr.
    destruct (primary_relevant (qrels (self w)) q') as [g|] eqn:Hq'.
    + assert (Hin' : q ∈ qs).
      { apply elem_of_cons in Hin as [->|?]; [congruence|done]. }
      destruct (index_of g p);
        (erewrite bind_Return by exact Hrr); by apply IH.
    + eexists. split; [by apply bind_Raise|done].
Qed.

Lemma avg_hits_loop_no_primary ps k q w :
  primary_relevant (qrels (self w)) q = None →
  Forall (λ p, k ≤ Z.of_nat (length p)) ps →
  ∀ qs index n c, q ∈ qs →
  ∃ e, _avg_hits_at_k_loop ps k index qs n c w = (Raise e, w)
       ∧ is_LookupError e = true.
Proof.
  intros Hq Hps. induction qs as [|q' qs IH]; intros index n c Hin.
  - by apply elem_of_nil in Hin.
  - simpl. unfold getitem. destruct (ps !! index) as [p|] eqn:Hp.
    2:{ eexists. split; [by apply bind_Raise|done]. }
    erewrite bind_Return by done.
    rewrite decide_False.
    2:{ rewrite Forall_forall in Hps.
        apply list_elem_of_lookup_2 in Hp. apply Hps in Hp. lia. }
    erewrite bind_Return by done.
    pose proof (hits_at_k_run q' p k w) as Hh.
    destruct (primary_relevant (qrels (self w)) q') as [g|] eqn:Hq'.
    + assert (Hin' : q ∈ qs).
      { apply elem_of_cons in Hin as [->|?]; [congruence|done]. }
      erewrite bind_Return by exact Hh. by apply IH.
    + eexists. split; [by apply bind_Raise|done].
Qed.

(** C6: for a query with no row carrying the primary label 2, [_hits_at_k]
    and [_reciprocal_rank] raise an [IndexError], a [LookupError]; nothing
    catches it: the batch methods [_mean_reciprocal_rank] and [evaluate], and
    [_avg_hits_at_k] when every prediction list passes its length check,
    raise a [LookupError] as soon as the batch contains the query, and no
    sentinel is returned. *)
Theorem no_primary_row_raises_LookupError w query_id :
  (∀ r, r ∈ qrels (self w) → id_left r = query_id → label r ≠ 2) →
  (∀ predict_ids k, ∃ e,
     _hits_at_k query_id predict_ids k w = (Raise e, w)
     ∧ is_LookupError e = true)
  ∧ (∀ predict_ids, ∃ e,
       _reciprocal_rank query_id predict_ids w = (Raise e, w)
       ∧ is_LookupError e = true)
  ∧ (∀ q_id_list predict_ids_list, query_id ∈ q_id_list → ∃ e,
       _mean_reciprocal_rank q_id_list predict_ids_list w = (Raise e, w)
       ∧ is_LookupError e = true)
  ∧ (∀ q_id_list predict_ids_list k, query_id ∈ q_id_list →
       Forall (λ p, k ≤ Z.of_nat (length p)) predict_ids_list → ∃ e,
       _avg_hits_at_k q_id_list predict_ids_list k w = (Raise e, w)
       ∧ is_LookupError e = true)
  ∧ (∀ format_report q_id_list predict_ids_list, query_id ∈ q_id_list → ∃ e,
       evaluate format_report q_id_list predict_ids_list w = (Raise e, w)
       ∧ is_LookupError e = true).
Proof.
  intros Hq%primary_relevant_None.
  assert (Hmrr : ∀ qs ps, query_id ∈ qs → ∃ e,
            _mean_reciprocal_rank qs ps w = (Raise e, w)
            ∧ is_LookupError e = true).
  { intros qs ps Hin.
    destruct (mean_reciprocal_rank_loop_no_primary ps query_id w Hq qs 0%nat 0
                0%Qc Hin) as (e & He & Hl).
    exists e. split; [|done]. unfold _mean_reciprocal_rank. by apply bind_Raise. }
  split; [|split; [|split; [|split]]].
  - intros p k. eexists. by rewrite hits_at_k_run, Hq.
  - intros p. eexists. by rewrite reciprocal_rank_run, Hq.
  - exact Hmrr.
  - intros qs ps k Hin Hps.
    destruct (avg_hits_loop_no_primary ps k query_id w Hq Hps qs 0%nat 0 0 Hin)
      as (e & He & Hl).
    exists e. split; [|done]. unfold _avg_hits_at_k. by apply bind_Raise.
  - intros fmt qs ps Hin. destruct (Hmrr qs ps Hin) as (e & He & Hl).
    exists e. split; [|done]. unfold evaluate. by apply bind_Raise.
Qed.

Lemma no_primary_row_raises_LookupError_witness :
  ∃ e, _mean_reciprocal_rank [1; 3] [[10]; [11]] w_two_queries
       = (Raise e, w_two_queries)
       ∧ is_LookupError e = true.
Proof.
  destruct (no_primary_row_raises_LookupError w_two_queries 3) as (_ & _ & H & _).
  - intros r Hr Hq. simpl in Hr.
    repeat (apply elem_of_cons in Hr as [->|Hr]; [simpl in Hq; lia|]).
    by apply elem_of_nil in Hr.
  - apply H. right; left.
Defined.

(** ** The judgments table is only read *)

Section ReadsOnly.
Context {A B : Type}.

Lemma reads_only_ret (a : A) : reads_only (mret a : M A).
Proof. by intros w. Qed.

Lemma reads_only_raise (e : exn) : reads_only (raise e : M A).
Proof. by intros w. Qed.

Lemma reads_only_bind (m : M A) (f : A → M B) :
  reads_only m → (∀ a, reads_only (f a)) → reads_only (m ≫= f).
Proof.
  intros Hm Hf w. unfold mbind, M_bind, bind.
  destruct (Hm w) as [Hself Hout].
  split.
  - destruct (m w) as [[a|e] w1]; simpl in *; [|done].
    destruct (Hf a w1) as [-> _]. done.
  - intros w' Hw'. specialize (Hout w' Hw').
    destruct (Hm w') as [Hself' _].
    destruct (m w) as [[a|e] w1], (m w') as [[a'|e'] w1'];
      simpl in *; try discriminate; [|by injection Hout as ->].
    injection Hout as ->.
    destruct (Hf a w1) as [_ Hfa]. apply Hfa. congruence.
Qed.
End ReadsOnly.

Lemma reads_only_self_qrels : reads_only self_qrels.
Proof.
  intros w. split; [done|]. intros w' Hw'.
  unfold self_qrels. simpl. by rewrite Hw'.
Qed.

Lemma reads_only_print (line : string) : reads_only (print line).
Proof. by intros w. Qed.

Lemma reads_only_truediv (a b : Qc) : reads_only (truediv a b).
Proof.
  unfold truediv. destruct (decide _);
    [apply reads_only_raise | apply reads_only_ret].
Qed.

Lemma reads_only_getitem {A} (l : list A) (index : nat) :
  reads_only (getitem l index).
Proof.
  unfold getitem. destruct (l !! index);
    [apply reads_only_ret | apply reads_only_raise].
Qed.

Lemma reads_only_list_index (l : list Z) (x : Z) : reads_only (list_index l x).
Proof.
  unfold list_index. destruct (index_of x l);
    [apply reads_only_ret | apply reads_only_raise].
Qed.

Lemma reads_only_iloc_0 (df : list qrel) : reads_only (iloc_0 df).
Proof.
  destruct df; [apply reads_only_raise | apply reads_only_ret].
Qed.

Create HintDb reads.

#[local] Hint Resolve reads_only_ret reads_only_raise reads_only_self_qrels
  reads_only_print reads_only_truediv reads_only_getitem reads_only_list_index
  reads_only_iloc_0 : reads.

Ltac reads_only_step :=
  first
    [ apply reads_only_bind; [|intros ?]
    | solve [auto with reads]
    | match goal with
      | |- reads_only (if ?c then _ else _) => destruct c
      | |- reads_only (match ?x with (_, _) => _ end) => destruct x
      | |- reads_only (let _ := _ in _) => cbv zeta
      end ].

Lemma reads_only_hits_at_k q p k : reads_only (_hits_at_k q p k).
Proof. unfold _hits_at_k. repeat reads_only_step. Qed.

Lemma reads_only_reciprocal_rank q p : reads_only (_reciprocal_rank q p).
Proof. unfold _reciprocal_rank. repeat reads_only_step. Qed.

Lemma reads_only_prec_at_k q p k : reads_only (_prec_at_k q p k).
Proof. unfold _prec_at_k. repeat reads_only_step. Qed.

#[local] Hint Resolve reads_only_hits_at_k reads_only_reciprocal_rank
  reads_only_prec_at_k : reads.

Lemma reads_only_avg_hits_at_k_loop ps k qs : ∀ index n c,
  reads_only (_avg_hits_at_k_loop ps k index qs n c).
Proof.
  induction qs as [|q qs IH]; intros index n c; simpl;
    repeat reads_only_step.
Qed.

Lemma reads_only_mean_reciprocal_rank_loop ps qs : ∀ index n c,
  reads_only (_mean_reciprocal_rank_loop ps index qs n c).
Proof.
  induction qs as [|q qs IH]; intros index n c; simpl;
    repeat reads_only_step.
Qed.

Lemma reads_only_avg_prec_at_k_loop ps k qs : ∀ index n c,
  reads_only (_avg_prec_at_k_loop ps k index qs n c).
Proof.
  induction qs as [|q qs IH]; intros index n c; simpl;
    repeat reads_only_step.
Qed.

#[local] Hint Resolve reads_only_avg_hits_at_k_loop
  reads_only_mean_reciprocal_rank_loop reads_only_avg_prec_at_k_loop : reads.

Lemma reads_only_avg_hits_at_k qs ps k : reads_only (_avg_hits_at_k qs ps k).
Proof. unfold _avg_hits_at_k. repeat reads_only_step. Qed.

Lemma reads_only_mean_reciprocal_rank qs ps :
  reads_only (_mean_reciprocal_rank qs ps).
Proof. unfold _mean_reciprocal_rank. repeat reads_only_step. Qed.

Lemma reads_only_avg_prec_at_k qs ps k : reads_only (_avg_prec_at_k qs ps k).
Proof. unfold _avg_prec_at_k. repeat reads_only_step. Qed.

#[local] Hint Resolve reads_only_avg_hits_at_k reads_only_mean_reciprocal_rank
  reads_only_avg_prec_at_k : reads.

Lemma reads_only_evaluate fmt qs ps : reads_only (evaluate fmt qs ps).
Proof. unfold evaluate. repeat reads_only_step. Qed.

(** A computation that only reads the table gives, called again in the world
    it left, the outcome it gave the first time. *)
Lemma reads_only_again {A} (m : M A) w :
  reads_only m → (m (m w).2).1 = (m w).1.
Proof. intros Hm. destruct (Hm w) as [Hself Hout]. by apply Hout. Qed.

(** C9: every metric, per query or over a batch, and [evaluate], leaves the
    [Eval] object and its judgments table as it found them; its outcome is
    the same in any two worlds holding the same table, whatever was printed
    before, so no state evolves from one call to the next: a second call with
    the same arguments gives the same outcome. *)
Theorem metrics_read_only :
  (∀ q p k, reads_only (_hits_at_k q p k))
  ∧ (∀ qs ps k, reads_only (_avg_hits_at_k qs ps k))
  ∧ (∀ q p, reads_only (_reciprocal_rank q p))
  ∧ (∀ qs ps, reads_only (_mean_reciprocal_rank qs ps))
  ∧ (∀ q p k, reads_only (_prec_at_k q p k))
  ∧ (∀ qs ps k, reads_only (_avg_prec_at_k qs ps k))
  ∧ (∀ fmt qs ps, reads_only (evaluate fmt qs ps))
  ∧ (∀ A (m : M A), reads_only m →
       ∀ w, qrels (self (m w).2) = qrels (self w)
            ∧ (m (m w).2).1 = (m w).1).
Proof.
  split; [apply reads_only_hits_at_k|].
  split; [apply reads_only_avg_hits_at_k|].
  split; [apply reads_only_reciprocal_rank|].
  split; [apply reads_only_mean_reciprocal_rank|].
  split; [apply reads_only_prec_at_k|].
  split; [apply reads_only_avg_prec_at_k|].
  split; [apply reads_only_evaluate|].
  intros A m Hm w. split.
  - destruct (Hm w) as [-> _]. done.
  - by apply reads_only_again.
Qed.

Lemma metrics_read_only_witness :
  qrels (self (_avg_prec_at_k [2] [[20]] 3 w_two_queries).2)
  = qrels (self w_two_queries)
  ∧ (_avg_prec_at_k [2] [[20]] 3 (_avg_prec_at_k [2] [[20]] 3 w_two_queries).2).1
    = (_avg_prec_at_k [2] [[20]] 3 w_two_queries).1.
Proof.
  destruct metrics_read_only as (_ & _ & _ & _ & _ & Hprec & _ & Hagain).
  apply (Hagain _ _ (Hprec [2] [[20]] 3) w_two_queries).
Defined.

(** * Further properties of the methods *)

(** ** Hits and ranks *)

Lemma hit_value_formula rows q p k :
  hit_value rows q p k =
  match primary_relevant rows q with
  | Some g => if decide (g ∈ slice_to p k) then 1 else 0
  | None => 0
  end.
Proof.
  unfold hit_value. rewrite hits_at_k_run. simpl.
  by destruct (primary_relevant rows q).
Qed.

Lemma rr_value_formula rows q p :
  rr_value rows q p =
  match primary_relevant rows q with
  | Some g =>
      match index_of g p with
      | Some i => (1 / Qc_of_Z (Z.of_nat i + 1))%Qc
      | None => 0%Qc
      end
  | None => 0%Qc
  end.
Proof.
  unfold rr_value. rewrite reciprocal_rank_run. simpl.
  destruct (primary_relevant rows q) as [g|]; [|done].
  by destruct (index_of g p).
Qed.

Lemma hits_at_k_value_run w q p k :
  is_Some (primary_relevant (qrels (self w)) q) →
  _hits_at_k q p k w = (Return (hit_value (qrels (self w)) q p k), w).
Proof.
  intros [g Hg]. by rewrite hits_at_k_run, hit_value_formula, Hg.
Qed.

Lemma reciprocal_rank_value_run w q p :
  is_Some (primary_relevant (qrels (self w)) q) →
  _reciprocal_rank q p w = (Return (rr_value (qrels (self w)) q p), w).
Proof.
  intros [g Hg]. rewrite reciprocal_rank_run, rr_value_formula, Hg.
  by destruct (index_of g p).
Qed.

(** Membership in the first [n] entries, by the position of the first
    occurrence. *)
Lemma elem_of_take_index_of (x : Z) (l : list Z) (n : nat) :
  x ∈ take n l ↔ ∃ i, index_of x l = Some i ∧ (i < n)%nat.
Proof.
  revert n. induction l as [|y l IH]; intros n.
  - rewrite take_nil. split; [by intros ?%elem_of_nil | by intros (? & ? & ?)].
  - destruct n as [|n]; simpl.
    + split; [by intros ?%elem_of_nil | intros (? & ? & ?); lia].
    + rewrite elem_of_cons. destruct (decide (y = x)) as [->|Hne].
      * split; [intros _; exists 0%nat; split; [done|lia] | by left].
      * rewrite IH. split.
        -- intros [?|(i & Hi & Hlt)]; [congruence|].
           exists (S i). rewrite Hi. split; [done|lia].
        -- intros (i & Hi & Hlt). right.
           destruct (index_of x l) as [j|]; [|done].
           injection Hi as <-. exists j. split; [done|lia].
Qed.

Lemma hit_value_iff rows q p k g :
  primary_relevant rows q = Some g → 0 ≤ k →
  hit_value rows q p k = 1
  ↔ ∃ i, index_of g p = Some i ∧ Z.of_nat i < k.
Proof.
  intros Hg Hk. rewrite hit_value_formula, Hg, slice_to_nonneg by done.
  destruct (decide _) as [Hin|Hin].
  - apply elem_of_take_index_of in Hin as (i & Hi & Hlt).
    split; [|done]. intros _. exists i. split; [done|lia].
  - split; [done|]. intros (i & Hi & Hlt). destruct Hin.
    apply elem_of_take_index_of. exists i. split; [done|lia].
Qed.

(** X1: for a query with primary document g and 0 <= k, [_hits_at_k] returns
    1 or 0, and it returns 1 exactly when the first occurrence of g in the
    predictions is at a zero-based position below k. *)
Theorem hits_at_k_iff_position w query_id predict_ids k g :
  primary_relevant (qrels (self w)) query_id = Some g →
  0 ≤ k →
  ∃ h, _hits_at_k query_id predict_ids k w = (Return h, w)
       ∧ (h = 0 ∨ h = 1)
       ∧ (h = 1 ↔ ∃ i, index_of g predict_ids = Some i ∧ Z.of_nat i < k).
Proof.
  intros Hg Hk. exists (hit_value (qrels (self w)) query_id predict_ids k).
  split; [by apply hits_at_k_value_run|]. split.
  - rewrite hit_value_formula, Hg. destruct (decide _); auto.
  - by apply hit_value_iff.
Qed.

Lemma hits_at_k_iff_position_witness :
  ∃ h, _hits_at_k 1 [3; 7; 9] 2 w_primary_7 = (Return h, w_primary_7)
       ∧ (h = 0 ∨ h = 1)
       ∧ (h = 1 ↔ ∃ i, index_of 7 [3; 7; 9] = Some i ∧ Z.of_nat i < 2).
Proof.
  apply (hits_at_k_iff_position w_primary_7 1 [3; 7; 9] 2 7); [reflexivity | lia].
Defined.

(** X2: a hit stays a hit when k grows: for 0 <= k <= k', if [_hits_at_k]
    returns 1 at k it returns 1 at k'. *)
Theorem hits_at_k_monotone w query_id predict_ids k k' :
  0 ≤ k → k ≤ k' →
  _hits_at_k query_id predict_ids k w = (Return 1, w) →
  _hits_at_k query_id predict_ids k' w = (Return 1, w).
Proof.
  intros Hk Hk'. rewrite !hits_at_k_run.
  destruct (primary_relevant _ _) as [g|] eqn:Hg; [|done].
  rewrite !slice_to_nonneg by lia.
  destruct (decide (g ∈ take (Z.to_nat k) predict_ids)) as [Hin|]; [|done].
  intros _. rewrite decide_True; [done|].
  apply elem_of_take_index_of in Hin as (i & Hi & Hlt).
  apply elem_of_take_index_of. exists i. split; [done|lia].
Qed.

Lemma hits_at_k_monotone_witness :
  _hits_at_k 1 [3; 7; 9] 5 w_primary_7 = (Return 1, w_primary_7).
Proof.
  apply (hits_at_k_monotone w_primary_7 1 [3; 7; 9] 2 5); [lia | lia | reflexivity].
Defined.

Lemma Qc_of_Z_pos (n : Z) : 0 < n → (0 < Qc_of_Z n)%Qc.
Proof. intros. rewrite <-Z2Qc_inj_0. by apply (proj1 (Z2Qc_inj_lt 0 n)). Qed.

Lemma Qc_of_Z_nonzero (n : Z) : 0 < n → Qc_of_Z n ≠ 0%Qc.
Proof.
  intros Hn H. apply Qc_of_Z_pos in Hn. rewrite H in Hn.
  by apply Qclt_not_eq in Hn.
Qed.

(** Reciprocals of positive integers reverse the order. *)
Lemma Qc_inv_Z_le (a b : Z) :
  0 < a → 0 < b → (1 / Qc_of_Z a ≤ 1 / Qc_of_Z b)%Qc ↔ b ≤ a.
Proof.
  intros Ha Hb.
  pose proof (Qc_of_Z_pos a Ha) as Hpa. pose proof (Qc_of_Z_pos b Hb) as Hpb.
  pose proof (Qc_of_Z_nonzero a Ha) as Hna.
  pose proof (Qc_of_Z_nonzero b Hb) as Hnb.
  rewrite (Qcmult_le_mono_pos_r _ _ (Qc_of_Z a * Qc_of_Z b)%Qc)
    by (by apply Qcmult_pos_pos).
  replace (1 / Qc_of_Z a * (Qc_of_Z a * Qc_of_Z b))%Qc with (Qc_of_Z b)
    by (field; done).
  replace (1 / Qc_of_Z b * (Qc_of_Z a * Qc_of_Z b))%Qc with (Qc_of_Z a)
    by (field; done).
  symmetry. apply Z2Qc_inj_le.
Qed.

Lemma Qc_inv_Z_pos (a : Z) : 0 < a → (0 < 1 / Qc_of_Z a)%Qc.
Proof.
  intros Ha. unfold Qcdiv. rewrite Qcmult_1_l.
  by apply Qcinv_pos, Qc_of_Z_pos.
Qed.

Lemma Qc_div_1_1 : (1 / Qc_of_Z 1)%Qc = 1%Qc.
Proof. by apply Qc_is_canon. Qed.

Lemma index_of_head (x : Z) (l : list Z) :
  index_of x l = Some 0%nat ↔ head l = Some x.
Proof.
  destruct l as [|y l]; simpl; [done|].
  destruct (decide (y = x)) as [->|Hne]; [done|].
  split; [|congruence]. by destruct (index_of x l).
Qed.

Lemma rr_value_range rows q p g :
  primary_relevant rows q = Some g →
  (0 ≤ rr_value rows q p ≤ 1)%Qc
  ∧ ((0 < rr_value rows q p)%Qc ↔ g ∈ p)
  ∧ (rr_value rows q p = 1%Qc ↔ head p = Some g).
Proof.
  intros Hg. rewrite rr_value_formula, Hg.
  destruct (index_of g p) as [i|] eqn:Hi.
  - assert (Hin : g ∈ p).
    { destruct (decide (g ∈ p)) as [|Hn]; [done|].
      apply index_of_None in Hn. congruence. }
    assert (Hpos : 0 < Z.of_nat i + 1) by lia.
    pose proof (Qc_inv_Z_pos _ Hpos) as H0.
    assert (H1 : (1 / Qc_of_Z (Z.of_nat i + 1) ≤ 1)%Qc).
    { rewrite <-Qc_div_1_1 at 2. apply Qc_inv_Z_le; lia. }
    split; [split; [by apply Qclt_le_weak | done]|]. split; [done|].
    rewrite <-index_of_head, Hi. split.
    + intros Heq. f_equal.
      assert (Hle : (1 / Qc_of_Z 1 ≤ 1 / Qc_of_Z (Z.of_nat i + 1))%Qc)
        by (rewrite Heq, Qc_div_1_1; apply Qcle_refl).
      apply (proj1 (Qc_inv_Z_le 1 (Z.of_nat i + 1) ltac:(lia) Hpos)) in Hle.
      lia.
    + intros [= ->]. apply Qc_div_1_1.
  - apply index_of_None in Hi.
    split; [done|]. split.
    + split; [by intros ?%Qclt_not_eq | done].
    + split; [done|].
      intros Hh. destruct Hi. destruct p as [|y p]; [done|].
      injection Hh as ->. by left.
Qed.

(** X3: for a query with primary document g, [_reciprocal_rank] returns a
    value between 0 and 1; the value is positive exactly when g is among the
    predictions, and it is 1 exactly when g is the first prediction. *)
Theorem reciprocal_rank_range w query_id predict_ids g :
  primary_relevant (qrels (self w)) query_id = Some g →
  ∃ r, _reciprocal_rank query_id predict_ids w = (Return r, w)
       ∧ (0 ≤ r ≤ 1)%Qc
       ∧ ((0 < r)%Qc ↔ g ∈ predict_ids)
       ∧ (r = 1%Qc ↔ head predict_ids = Some g).
Proof.
  intros Hg. exists (rr_value (qrels (self w)) query_id predict_ids).
  split; [by apply reciprocal_rank_value_run|].
  by apply rr_value_range.
Qed.

Lemma reciprocal_rank_range_witness :
  ∃ r, _reciprocal_rank 1 [3; 7; 9] w_primary_7 = (Return r, w_primary_7)
       ∧ (0 ≤ r ≤ 1)%Qc
       ∧ ((0 < r)%Qc ↔ 7 ∈ [3; 7; 9])
       ∧ (r = 1%Qc ↔ head [3; 7; 9] = Some 7).
Proof.
  apply (reciprocal_rank_range w_primary_7 1 [3; 7; 9] 7). reflexivity.
Defined.

(** X4: hits and ranks agree: for a query with a primary document and k >= 1,
    [_hits_at_k] returns 1 exactly when the value of [_reciprocal_rank] is at
    least 1/k. *)
Theorem hits_at_k_iff_reciprocal_rank w query_id predict_ids k :
  is_Some (primary_relevant (qrels (self w)) query_id) →
  1 ≤ k →
  ∃ h r, _hits_at_k query_id predict_ids k w = (Return h, w)
         ∧ _reciprocal_rank query_id predict_ids w = (Return r, w)
         ∧ (h = 1 ↔ (1 / Qc_of_Z k ≤ r)%Qc).
Proof.
  intros Hsome Hk. pose proof Hsome as [g Hg].
  exists (hit_value (qrels (self w)) query_id predict_ids k),
         (rr_value (qrels (self w)) query_id predict_ids).
  split; [by apply hits_at_k_value_run|].
  split; [by apply reciprocal_rank_value_run|].
  rewrite (hit_value_iff _ _ _ _ g) by (done || lia).
  rewrite rr_value_formula, Hg.
  destruct (index_of g predict_ids) as [i|].
  - rewrite Qc_inv_Z_le by lia. split.
    + intros (j & [= <-] & Hlt). lia.
    + intros Hle. exists i. split; [done|lia].
  - split; [by intros (? & ? & _)|].
    intros Hle. pose proof (Qc_inv_Z_pos k) as Hp.
    assert (Hlt : (0 < 0)%Qc)
      by (eapply Qclt_le_trans; [apply Hp; lia | exact Hle]).
    by apply Qclt_not_eq in Hlt.
Qed.

Lemma hits_at_k_iff_reciprocal_rank_witness :
  ∃ h r, _hits_at_k 1 [3; 7; 9] 2 w_primary_7 = (Return h, w_primary_7)
         ∧ _reciprocal_rank 1 [3; 7; 9] w_primary_7 = (Return r, w_primary_7)
         ∧ (h = 1 ↔ (1 / Qc_of_Z 2 ≤ r)%Qc).
Proof.
  apply (hits_at_k_iff_reciprocal_rank w_primary_7 1 [3; 7; 9] 2);
    [by eexists | lia].
Defined.

(** ** The averages of hits and of reciprocal ranks *)

Lemma mean_reciprocal_rank_loop_cons p ps q qs n c w :
  _mean_reciprocal_rank_loop (p :: ps) 0 (q :: qs) n c w =
  match primary_relevant (qrels (self w)) q with
  | Some _ =>
      _mean_reciprocal_rank_loop ps 0 qs (n + 1)
        (c + rr_value (qrels (self w)) q p)%Qc w
  | None =>
      (Raise (IndexError "single positional indexer is out-of-bounds"), w)
  end.
Proof.
  simpl. erewrite bind_Return by done.
  destruct (primary_relevant _ _) as [g|] eqn:Hg.
  - erewrite bind_Return by (by apply reciprocal_rank_value_run; eexists).
    apply mean_reciprocal_rank_loop_shift.
  - apply bind_Raise. by rewrite reciprocal_rank_run, Hg.
Qed.

Lemma mean_reciprocal_rank_loop_run qs : ∀ ps n c w,
  (length qs ≤ length ps)%nat →
  Forall (λ q, is_Some (primary_relevant (qrels (self w)) q)) qs →
  _mean_reciprocal_rank_loop ps 0 qs n c w =
  (Return (n + Z.of_nat (length qs),
           (c + sum_Qc (rr_results (qrels (self w)) qs ps))%Qc), w).
Proof.
  induction qs as [|q qs IH]; intros ps n c w Hlen Hprim.
  - simpl. by rewrite Z.add_0_r, Qcplus_0_r.
  - destruct ps as [|p ps]; [simpl in Hlen; lia|].
    apply Forall_cons in Hprim as [[g Hg] Hprim].
    rewrite mean_reciprocal_rank_loop_cons, Hg.
    rewrite IH by (done || simpl in Hlen; lia).
    unfold rr_results. simpl. f_equal. f_equal. f_equal; [lia|].
    symmetry. apply Qcplus_assoc.
Qed.

Lemma avg_hits_loop_run k qs : ∀ ps n c w,
  (length qs ≤ length ps)%nat →
  (∀ q p, (q, p) ∈ zip qs ps →
     k ≤ Z.of_nat (length p) ∧ is_Some (primary_relevant (qrels (self w)) q)) →
  _avg_hits_at_k_loop ps k 0 qs n c w =
  (Return (n + Z.of_nat (length qs),
           c + sum_Z (hit_results (qrels (self w)) qs ps k)), w).
Proof.
  induction qs as [|q qs IH]; intros ps n c w Hlen Hok.
  - simpl. by rewrite !Z.add_0_r.
  - destruct ps as [|p ps]; [simpl in Hlen; lia|].
    destruct (Hok q p) as [Hk [g Hg]]; [left|].
    rewrite avg_hits_loop_cons, decide_False, Hg by lia.
    rewrite IH.
    + unfold hit_results. simpl. rewrite hit_value_formula, Hg.
      f_equal. f_equal. f_equal; [lia|]. symmetry. apply Z.add_assoc.
    + simpl in Hlen. lia.
    + intros q' p' Hin. apply Hok. by right.
Qed.

Lemma sum_Qc_bounds (l : list Qc) :
  Forall (λ x, 0 ≤ x ≤ 1)%Qc l →
  (0 ≤ sum_Qc l ≤ Qc_of_Z (Z.of_nat (length l)))%Qc.
Proof.
  induction 1 as [|x l [H0 H1] _ [IH0 IH1]].
  - change (Z.of_nat (length (@nil Qc))) with 0. by rewrite Z2Qc_inj_0.
  - cbn [sum_Qc foldr length]. fold (sum_Qc l).
    split; [by apply Qcplus_nonneg_nonneg|].
    replace (Z.of_nat (S (length l))) with (1 + Z.of_nat (length l)) by lia.
    rewrite Z2Qc_inj_add, Z2Qc_inj_1. by apply Qcplus_le_compat.
Qed.

Lemma sum_Z_bounds (l : list Z) :
  Forall (λ x, 0 ≤ x ≤ 1) l → 0 ≤ sum_Z l ≤ Z.of_nat (length l).
Proof.
  induction 1 as [|x l [H0 H1] _ [IH0 IH1]]; simpl; lia.
Qed.

(** A nonnegative sum that does not exceed the count it is divided by gives an
    average in [0, 1]. *)
Lemma average_range (s : Qc) (n : Z) :
  0 ≤ n → (0 ≤ s ≤ Qc_of_Z n)%Qc →
  (0 ≤ s / (Qc_of_Z n + EPS) ≤ 1)%Qc.
Proof.
  intros Hn [H0 H1].
  pose proof (Z_plus_EPS_pos n Hn) as Hd.
  assert (Hi : (0 < / (Qc_of_Z n + EPS))%Qc) by (by apply Qcinv_pos).
  split.
  - unfold Qcdiv. apply Qcmult_nonneg_nonneg; [done|by apply Qclt_le_weak].
  - apply (Qcmult_le_mono_pos_r _ _ (Qc_of_Z n + EPS)); [done|].
    rewrite Qcmult_1_l.
    replace (s / (Qc_of_Z n + EPS) * (Qc_of_Z n + EPS))%Qc with s
      by (field; by apply Qclt_not_eq in Hd).
    etrans; [exact H1|].
    rewrite <-(Qcplus_0_r (Qc_of_Z n)) at 1.
    apply Qcplus_le_mono_l, Qclt_le_weak, EPS_pos.
Qed.

(** X5: on a batch with a prediction list for every query, each query having
    a primary row, [_mean_reciprocal_rank] returns the sum of the reciprocal
    ranks divided by (number of queries + EPS), prints nothing, and the mean
    lies in [0, 1]. *)
Theorem mean_reciprocal_rank_formula w q_id_list predict_ids_list :
  (length q_id_list ≤ length predict_ids_list)%nat →
  (∀ q, q ∈ q_id_list → is_Some (primary_relevant (qrels (self w)) q)) →
  let mrr := (sum_Qc (rr_results (qrels (self w)) q_id_list predict_ids_list)
              / (Qc_of_Z (Z.of_nat (length q_id_list)) + EPS))%Qc in
  _mean_reciprocal_rank q_id_list predict_ids_list w = (Return mrr, w)
  ∧ (0 ≤ mrr ≤ 1)%Qc.
Proof.
  intros Hlen Hprim mrr. split.
  - unfold _mean_reciprocal_rank.
    erewrite bind_Return
      by (apply mean_reciprocal_rank_loop_run; [done|by apply Forall_forall]).
    simpl. by rewrite truediv_EPS, Z.add_0_l, Qcplus_0_l.
  - subst mrr. apply average_range; [lia|].
    assert (Hl : length (rr_results (qrels (self w)) q_id_list predict_ids_list)
                 = length q_id_list).
    { unfold rr_results. rewrite length_fmap, length_zip_with. lia. }
    rewrite <-Hl. apply sum_Qc_bounds.
    unfold rr_results. apply Forall_fmap, Forall_forall.
    intros [q p] Hin. simpl.
    destruct (Hprim q) as [g Hg].
    { apply elem_of_zip_l in Hin. done. }
    by destruct (rr_value_range (qrels (self w)) q p g Hg) as [? _].
Qed.

Lemma mean_reciprocal_rank_formula_witness :
  let mrr := (sum_Qc (rr_results (qrels (self w_two_queries)) [1; 2]%Z
                        [[11; 10]; [20]]%Z)
              / (Qc_of_Z 2 + EPS))%Qc in
  _mean_reciprocal_rank [1; 2] [[11; 10]; [20]] w_two_queries
  = (Return mrr, w_two_queries)
  ∧ (0 ≤ mrr ≤ 1)%Qc.
Proof.
  apply (mean_reciprocal_rank_formula w_two_queries [1; 2] [[11; 10]; [20]]).
  - simpl. lia.
  - intros q Hq.
    apply elem_of_cons in Hq as [->|Hq]; [by eexists|].
    apply elem_of_cons in Hq as [->|Hq]; [by eexists|].
    by apply elem_of_nil in Hq.
Defined.

(** X6: on a batch with a prediction list of at least k entries for every
    query, each query having a primary row, [_avg_hits_at_k] returns the
    number of hits divided by (number of queries + EPS), prints nothing, and
    the average lies in [0, 1]. *)
Theorem avg_hits_at_k_formula w q_id_list predict_ids_list k :
  (length q_id_list ≤ length predict_ids_list)%nat →
  (∀ q p, (q, p) ∈ zip q_id_list predict_ids_list →
     k ≤ Z.of_nat (length p)
     ∧ is_Some (primary_relevant (qrels (self w)) q)) →
  let avg_hak :=
    (Qc_of_Z (sum_Z (hit_results (qrels (self w)) q_id_list predict_ids_list k))
     / (Qc_of_Z (Z.of_nat (length q_id_list)) + EPS))%Qc in
  _avg_hits_at_k q_id_list predict_ids_list k w = (Return avg_hak, w)
  ∧ (0 ≤ avg_hak ≤ 1)%Qc.
Proof.
  intros Hlen Hok avg_hak. split.
  - unfold _avg_hits_at_k.
    erewrite bind_Return by (by apply avg_hits_loop_run).
    simpl. by rewrite truediv_EPS, !Z.add_0_l.
  - subst avg_hak. apply average_range; [lia|].
    assert (Hl : length (hit_results (qrels (self w)) q_id_list predict_ids_list k)
                 = length q_id_list).
    { unfold hit_results. rewrite length_fmap, length_zip_with. lia. }
    assert (Hb : 0 ≤ sum_Z (hit_results (qrels (self w)) q_id_list
                              predict_ids_list k)
                 ≤ Z.of_nat (length q_id_list)).
    { rewrite <-Hl. apply sum_Z_bounds.
      unfold hit_results. apply Forall_fmap, Forall_forall.
      intros [q p] _. simpl. rewrite hit_value_formula.
      destruct (primary_relevant _ _); [destruct (decide _)|]; lia. }
    rewrite <-Z2Qc_inj_0. split; apply (proj1 (Z2Qc_inj_le _ _)); lia.
Qed.

Lemma avg_hits_at_k_formula_witness :
  let avg_hak :=
    (Qc_of_Z (sum_Z (hit_results (qrels (self w_two_queries)) [1; 2]%Z
                       [[11; 10]; [21; 22]]%Z 2%Z))
     / (Qc_of_Z 2 + EPS))%Qc in
  _avg_hits_at_k [1; 2] [[11; 10]; [21; 22]] 2 w_two_queries
  = (Return avg_hak, w_two_queries)
  ∧ (0 ≤ avg_hak ≤ 1)%Qc.
Proof.
  apply (avg_hits_at_k_formula w_two_queries [1; 2] [[11; 10]; [21; 22]] 2).
  - simpl. lia.
  - intros q p Hin. simpl in Hin.
    apply elem_of_cons in Hin as [[= -> ->]|Hin];
      [split; [simpl; lia | by eexists]|].
    apply elem_of_cons in Hin as [[= -> ->]|Hin];
      [split; [simpl; lia | by eexists]|].
    by apply elem_of_nil in Hin.
Defined.

(** ** Batches with too few or too many prediction lists *)

Lemma avg_prec_loop_too_few k ps : ∀ qs n c w,
  (length ps < length qs)%nat →
  _avg_prec_at_k_loop ps k 0 qs n c w =
  (Raise (IndexError "list index out of range"),
   World (self w) (stdout w ++ skip_notices (qrels (self w)) qs ps k)).
Proof.
  induction ps as [|p ps IH]; intros qs n c w Hlen.
  - destruct qs as [|q qs]; [simpl in Hlen; lia|].
    unfold skip_notices, prec_results. simpl.
    by rewrite app_nil_r, world_eta.
  - destruct qs as [|q qs]; [simpl in Hlen; lia|].
    rewrite avg_prec_loop_cons. cbv zeta.
    unfold skip_notices, prec_results. simpl zip.
    rewrite fmap_cons, filter_cons. simpl.
    fold (prec_results (qrels (self w)) qs ps k).
    destruct (decide _) as [Hs|Hs].
    + rewrite IH by (simpl in Hlen; lia). simpl.
      unfold skip_notices. by rewrite <-app_assoc.
    + by rewrite IH by (simpl in Hlen; lia).
Qed.

(** X7: when there are fewer prediction lists than queries, [_avg_prec_at_k]
    raises [IndexError] at the first query without a list; the notices
    printed for the queries skipped before stay printed. *)
Theorem avg_prec_at_k_too_few_lists w q_id_list predict_ids_list k :
  (length predict_ids_list < length q_id_list)%nat →
  _avg_prec_at_k q_id_list predict_ids_list k w =
  (Raise (IndexError "list index out of range"),
   World (self w)
     (stdout w ++ skip_notices (qrels (self w)) q_id_list predict_ids_list k)).
Proof.
  intros Hlen. unfold _avg_prec_at_k.
  apply bind_Raise. by apply avg_prec_loop_too_few.
Qed.

Lemma avg_prec_at_k_too_few_lists_witness :
  _avg_prec_at_k [2; 1; 1] [[20]; [10]] 2 w_two_queries =
  (Raise (IndexError "list index out of range"),
   World (self w_two_queries)
     ["Query 2 has less than 2 golden relevant documents, skipping..."]).
Proof.
  rewrite (avg_prec_at_k_too_few_lists w_two_queries [2; 1; 1] [[20]; [10]] 2).
  - by vm_compute.
  - simpl. lia.
Defined.

Lemma mean_reciprocal_rank_loop_too_few ps w qs : ∀ index n c,
  (index ≤ length ps)%nat → (length ps < index + length qs)%nat →
  ∃ e, _mean_reciprocal_rank_loop ps index qs n c w = (Raise e, w)
       ∧ is_LookupError e = true.
Proof.
  induction qs as [|q qs IH]; intros index n c Hle Hlt; [simpl in Hlt; lia|].
  simpl. unfold getitem. destruct (ps !! index) as [p|] eqn:Hp.
  2:{ eexists. split; [by apply bind_Raise|done]. }
  apply lookup_lt_Some in Hp.
  erewrite bind_Return by done.
  pose proof (reciprocal_rank_run q p w) as Hrr.
  destruct (primary_relevant (qrels (self w)) q) as [g|].
  - destruct (index_of g p);
      (erewrite bind_Return by exact Hrr); apply IH; simpl in *; lia.
  - eexists. split; [by apply bind_Raise|done].
Qed.

Lemma avg_hits_loop_too_few ps k w qs : ∀ index n c,
  (index ≤ length ps)%nat → (length ps < index + length qs)%nat →
  ∃ e, _avg_hits_at_k_loop ps k index qs n c w = (Raise e, w).
Proof.
  induction qs as [|q qs IH]; intros index n c Hle Hlt; [simpl in Hlt; lia|].
  simpl. unfold getitem. destruct (ps !! index) as [p|] eqn:Hp.
  2:{ eexists. by apply bind_Raise. }
  apply lookup_lt_Some in Hp.
  erewrite bind_Return by done.
  destruct (decide _); [by eexists|].
  erewrite bind_Return by done.
  pose proof (hits_at_k_run q p k w) as Hh.
  destruct (primary_relevant (qrels (self w)) q) as [g|].
  - erewrite bind_Return by exact Hh. apply IH; simpl in *; lia.
  - eexists. by apply bind_Raise.
Qed.

(** X8: when there are fewer prediction lists than queries,
    [_mean_reciprocal_rank] raises a [LookupError] and [_avg_hits_at_k]
    raises; neither returns an average over the queries that do have a list,
    and nothing is printed. *)
Theorem hits_and_ranks_too_few_lists w q_id_list predict_ids_list :
  (length predict_ids_list < length q_id_list)%nat →
  (∃ e, _mean_reciprocal_rank q_id_list predict_ids_list w = (Raise e, w)
        ∧ is_LookupError e = true)
  ∧ (∀ k, ∃ e, _avg_hits_at_k q_id_list predict_ids_list k w = (Raise e, w)).
Proof.
  intros Hlen. split.
  - destruct (mean_reciprocal_rank_loop_too_few predict_ids_list w q_id_list
                0%nat 0 0%Qc) as (e & He & Hl); [lia | lia |].
    exists e. split; [|done]. unfold _mean_reciprocal_rank. by apply bind_Raise.
  - intros k.
    destruct (avg_hits_loop_too_few predict_ids_list k w q_id_list
                0%nat 0 0) as (e & He); [lia | lia |].
    exists e. unfold _avg_hits_at_k. by apply bind_Raise.
Qed.

Lemma hits_and_ranks_too_few_lists_witness :
  (∃ e, _mean_reciprocal_rank [1; 2] [[10]] w_two_queries
        = (Raise e, w_two_queries) ∧ is_LookupError e = true)
  ∧ (∀ k, ∃ e, _avg_hits_at_k [1; 2] [[10]] k w_two_queries
               = (Raise e, w_two_queries)).
Proof.
  apply (hits_and_ranks_too_few_lists w_two_queries [1; 2] [[10]]).
  simpl. lia.
Defined.

Lemma avg_hits_loop_take k qs : ∀ ps n c w,
  _avg_hits_at_k_loop ps k 0 qs n c w
  = _avg_hits_at_k_loop (take (length qs) ps) k 0 qs n c w.
Proof.
  induction qs as [|q qs IH]; intros ps n c w; [done|].
  destruct ps as [|p ps]; [done|].
  cbn [length take]. rewrite !avg_hits_loop_cons.
  destruct (decide _); [done|].
  destruct (primary_relevant _ _); [apply IH|done].
Qed.

Lemma mean_reciprocal_rank_loop_take qs : ∀ ps n c w,
  _mean_reciprocal_rank_loop ps 0 qs n c w
  = _mean_reciprocal_rank_loop (take (length qs) ps) 0 qs n c w.
Proof.
  induction qs as [|q qs IH]; intros ps n c w; [done|].
  destruct ps as [|p ps]; [done|].
  cbn [length take]. rewrite !mean_reciprocal_rank_loop_cons.
  destruct (primary_relevant _ _); [apply IH|done].
Qed.

Lemma avg_prec_loop_take k qs : ∀ ps n c w,
  _avg_prec_at_k_loop ps k 0 qs n c w
  = _avg_prec_at_k_loop (take (length qs) ps) k 0 qs n c w.
Proof.
  induction qs as [|q qs IH]; intros ps n c w; [done|].
  destruct ps as [|p ps]; [done|].
  cbn [length take]. rewrite !avg_prec_loop_cons. cbv zeta.
  destruct (decide _); apply IH.
Qed.

(** X9: the batch methods read one prediction list per query and no more:
    prediction lists beyond the number of queries change nothing, neither the
    outcome nor what is printed; a short list among them raises nothing. *)
Theorem surplus_prediction_lists_ignored w q_id_list predict_ids_list extra k :
  length predict_ids_list = length q_id_list →
  _avg_hits_at_k q_id_list (predict_ids_list ++ extra) k w
  = _avg_hits_at_k q_id_list predict_ids_list k w
  ∧ _mean_reciprocal_rank q_id_list (predict_ids_list ++ extra) w
    = _mean_reciprocal_rank q_id_list predict_ids_list w
  ∧ _avg_prec_at_k q_id_list (predict_ids_list ++ extra) k w
    = _avg_prec_at_k q_id_list predict_ids_list k w.
Proof.
  intros Hlen.
  assert (Ht : take (length q_id_list) (predict_ids_list ++ extra)
               = take (length q_id_list) predict_ids_list).
  { rewrite <-Hlen, take_app_length. by rewrite firstn_all. }
  unfold _avg_hits_at_k, _mean_reciprocal_rank, _avg_prec_at_k.
  split; [|split]; (apply bind_ext; [|done]).
  - rewrite avg_hits_loop_take, Ht. symmetry. apply avg_hits_loop_take.
  - rewrite mean_reciprocal_rank_loop_take, Ht. symmetry.
    apply mean_reciprocal_rank_loop_take.
  - rewrite avg_prec_loop_take, Ht. symmetry. apply avg_prec_loop_take.
Qed.

Lemma surplus_prediction_lists_ignored_witness :
  _avg_hits_at_k [1] ([[10; 11]] ++ [[]]) 2 w_two_queries
  = _avg_hits_at_k [1] [[10; 11]] 2 w_two_queries
  ∧ _mean_reciprocal_rank [1] ([[10; 11]] ++ [[]]) w_two_queries
    = _mean_reciprocal_rank [1] [[10; 11]] w_two_queries
  ∧ _avg_prec_at_k [1] ([[10; 11]] ++ [[]]) 2 w_two_queries
    = _avg_prec_at_k [1] [[10; 11]] 2 w_two_queries.
Proof.
  apply (surplus_prediction_lists_ignored w_two_queries [1] [[10; 11]] [[]] 2).
  reflexivity.
Defined.

(** ** What the methods print *)

Lemma silent_bind {A B} (m : M A) (f : A → M B) :
  silent m → (∀ a, silent (f a)) → silent (m ≫= f).
Proof.
  intros Hm Hf w. unfold mbind, M_bind, bind.
  specialize (Hm w). destruct (m w) as [[a|e] w1]; simpl in *; subst w1.
  - apply Hf.
  - done.
Qed.

Lemma silent_ret {A} (a : A) : silent (mret a : M A).
Proof. by intros w. Qed.

Lemma silent_raise {A} (e : exn) : silent (raise e : M A).
Proof. by intros w. Qed.

Lemma silent_truediv (a b : Qc) : silent (truediv a b).
Proof. unfold truediv. destruct (decide _); [apply silent_raise|apply silent_ret]. Qed.

Lemma silent_getitem {A} (l : list A) (index : nat) : silent (getitem l index).
Proof. unfold getitem. destruct (l !! index); [apply silent_ret|apply silent_raise]. Qed.

Lemma silent_hits_at_k q p k : silent (_hits_at_k q p k).
Proof. intros w. rewrite hits_at_k_run. by destruct (primary_relevant _ _). Qed.

Lemma silent_reciprocal_rank q p : silent (_reciprocal_rank q p).
Proof.
  intros w. rewrite reciprocal_rank_run.
  destruct (primary_relevant _ _) as [g|]; [|done]. by destruct (index_of g p).
Qed.

Lemma silent_prec_at_k q p k : silent (_prec_at_k q p k).
Proof. intros w. by rewrite prec_at_k_run. Qed.

Lemma silent_avg_hits_at_k_loop ps k qs : ∀ index n c,
  silent (_avg_hits_at_k_loop ps k index qs n c).
Proof.
  induction qs as [|q qs IH]; intros index n c; simpl; [apply silent_ret|].
  apply silent_bind; [apply silent_getitem|]. intros p.
  destruct (decide _); [apply silent_raise|].
  apply silent_bind; [apply silent_getitem|]. intros p'.
  apply silent_bind; [apply silent_hits_at_k|]. intros h. apply IH.
Qed.

Lemma silent_mean_reciprocal_rank_loop ps qs : ∀ index n c,
  silent (_mean_reciprocal_rank_loop ps index qs n c).
Proof.
  induction qs as [|q qs IH]; intros index n c; simpl; [apply silent_ret|].
  apply silent_bind; [apply silent_getitem|]. intros p.
  apply silent_bind; [apply silent_reciprocal_rank|]. intros r. apply IH.
Qed.

Lemma silent_avg_hits_at_k qs ps k : silent (_avg_hits_at_k qs ps k).
Proof.
  unfold _avg_hits_at_k. apply silent_bind; [apply silent_avg_hits_at_k_loop|].
  intros [n c]. apply silent_truediv.
Qed.

Lemma silent_mean_reciprocal_rank qs ps : silent (_mean_reciprocal_rank qs ps).
Proof.
  unfold _mean_reciprocal_rank.
  apply silent_bind; [apply silent_mean_reciprocal_rank_loop|].
  intros [n c]. apply silent_truediv.
Qed.

Lemma appends_only_bind {A B} (m : M A) (f : A → M B) :
  appends_only m → (∀ a, appends_only (f a)) → appends_only (m ≫= f).
Proof.
  intros Hm Hf w. unfold mbind, M_bind, bind.
  destruct (Hm w) as [Hs Hp]. destruct (m w) as [[a|e] w1]; simpl in *.
  - destruct (Hf a w1) as [Hs' Hp']. split; [congruence|].
    by etrans.
  - done.
Qed.

Lemma silent_appends_only {A} (m : M A) : silent m → appends_only m.
Proof. intros Hm w. by rewrite Hm. Qed.

Lemma appends_only_print line : appends_only (print line).
Proof. intros w. split; [done|]. simpl. by apply prefix_app_r. Qed.

Lemma appends_only_avg_prec_at_k_loop ps k qs : ∀ index n c,
  appends_only (_avg_prec_at_k_loop ps k index qs n c).
Proof.
  induction qs as [|q qs IH]; intros index n c; simpl.
  - apply silent_appends_only, silent_ret.
  - apply appends_only_bind; [apply silent_appends_only, silent_getitem|].
    intros p.
    apply appends_only_bind; [apply silent_appends_only, silent_prec_at_k|].
    intros v. destruct (decide _); [|apply IH].
    apply appends_only_bind; [apply appends_only_print|]. intros _. apply IH.
Qed.

Lemma appends_only_avg_prec_at_k qs ps k : appends_only (_avg_prec_at_k qs ps k).
Proof.
  unfold _avg_prec_at_k.
  apply appends_only_bind; [apply appends_only_avg_prec_at_k_loop|].
  intros [n c].
  apply appends_only_bind; [apply silent_appends_only, silent_truediv|].
  intros a. apply silent_appends_only, silent_ret.
Qed.

Lemma appends_only_evaluate fmt qs ps : appends_only (evaluate fmt qs ps).
Proof.
  unfold evaluate.
  apply appends_only_bind;
    [apply silent_appends_only, silent_mean_reciprocal_rank|]. intros mrr.
  apply appends_only_bind;
    [apply silent_appends_only, silent_avg_hits_at_k|]. intros hits.
  apply appends_only_bind; [apply appends_only_avg_prec_at_k|]. intros [p5 c5].
  apply appends_only_bind; [apply appends_only_avg_prec_at_k|]. intros [p10 c10].
  apply appends_only_bind; [apply appends_only_avg_prec_at_k|]. intros [p20 c20].
  apply appends_only_bind; [apply appends_only_print|]. intros _.
  apply silent_appends_only, silent_ret.
Qed.

(** X10: the three per-query methods, [_avg_hits_at_k] and
    [_mean_reciprocal_rank] print nothing and leave the world as it is,
    whether they return or raise; [_avg_prec_at_k] and [evaluate] keep the
    [Eval] object and only add lines after what was already printed, also
    when they raise. *)
Theorem methods_output :
  (∀ q p k, silent (_hits_at_k q p k))
  ∧ (∀ q p, silent (_reciprocal_rank q p))
  ∧ (∀ q p k, silent (_prec_at_k q p k))
  ∧ (∀ qs ps k, silent (_avg_hits_at_k qs ps k))
  ∧ (∀ qs ps, silent (_mean_reciprocal_rank qs ps))
  ∧ (∀ qs ps k, appends_only (_avg_prec_at_k qs ps k))
  ∧ (∀ fmt qs ps, appends_only (evaluate fmt qs ps)).
Proof.
  split; [apply silent_hits_at_k|].
  split; [apply silent_reciprocal_rank|].
  split; [apply silent_prec_at_k|].
  split; [apply silent_avg_hits_at_k|].
  split; [apply silent_mean_reciprocal_rank|].
  split; [apply appends_only_avg_prec_at_k|].
  apply appends_only_evaluate.
Qed.

(** ** The count and the range of the averaged precision *)

Lemma avg_prec_at_k_run w qs ps k :
  (length qs ≤ length ps)%nat →
  _avg_prec_at_k qs ps k w =
  (Return (avg_prec_of (qrels (self w)) qs ps k,
           scored_count (qrels (self w)) qs ps k),
   World (self w) (stdout w ++ skip_notices (qrels (self w)) qs ps k)).
Proof.
  intros Hlen. unfold _avg_prec_at_k.
  erewrite bind_Return by (by apply avg_prec_loop_run).
  simpl. erewrite bind_Return by apply truediv_EPS.
  unfold avg_prec_of, scored_count, skip_notices.
  by rewrite Z.add_0_l, Qcplus_0_l.
Qed.

Lemma filter_partition_length {A} (P : A → Prop) `{∀ x, Decision (P x)}
    (l : list A) :
  (length (filter P l) + length (filter (λ x, ¬ P x) l) = length l)%nat.
Proof.
  induction l as [|x l IH]; [done|]. rewrite !filter_cons.
  destruct (decide (P x)) as [HP|HP].
  - rewrite decide_False by auto. simpl. lia.
  - rewrite decide_True by done. simpl. lia.
Qed.

Lemma prec_results_length rows qs ps k :
  (length qs ≤ length ps)%nat →
  length (prec_results rows qs ps k) = length qs.
Proof.
  intros. unfold prec_results. rewrite length_fmap, length_zip_with. lia.
Qed.

Lemma prec_value_scored_range rows q p k :
  0 ≤ k → prec_value rows q p k ≠ (-1)%Qc →
  (0 ≤ prec_value rows q p k ≤ 1)%Qc.
Proof.
  intros Hk. rewrite prec_value_formula.
  destruct (decide _) as [|Hrows]; [done|]. intros _.
  destruct (average_range
    (Qc_of_Z (Z.of_nat (size (all_relevant rows q
                                ∩ list_to_set (slice_to p k))))) k Hk)
    as [H0 H1].
  - rewrite <-Z2Qc_inj_0.
    split; apply (proj1 (Z2Qc_inj_le _ _)); [lia|].
    by apply size_inter_slice_le.
  - done.
Qed.

(** X11: for 0 <= k, on a batch with a prediction list for every query,
    [_avg_prec_at_k] returns; every query is either counted or announced by
    one printed notice, so count + notices = number of queries; and the
    average lies in [0, 1]. *)
Theorem avg_prec_at_k_count w q_id_list predict_ids_list k :
  (length q_id_list ≤ length predict_ids_list)%nat →
  0 ≤ k →
  ∃ avg_prec count notices,
    _avg_prec_at_k q_id_list predict_ids_list k w
    = (Return (avg_prec, count), World (self w) (stdout w ++ notices))
    ∧ 0 ≤ count
    ∧ count + Z.of_nat (length notices) = Z.of_nat (length q_id_list)
    ∧ (0 ≤ avg_prec ≤ 1)%Qc.
Proof.
  intros Hlen Hk. eexists _, _, _.
  split; [by apply avg_prec_at_k_run|].
  unfold scored_count, skip_notices, avg_prec_of.
  set (results := prec_results (qrels (self w)) q_id_list predict_ids_list k).
  pose proof (filter_partition_length (λ qv : Z * Qc, qv.2 = (-1)%Qc) results)
    as Hp.
  simpl in Hp.
  pose proof (prec_results_length (qrels (self w)) q_id_list predict_ids_list k
                Hlen) as Hl.
  fold results in Hl.
  split; [lia|]. split; [rewrite length_fmap; lia|].
  unfold scored_count. fold results.
  apply average_range; [lia|].
  rewrite <-(length_fmap snd). apply sum_Qc_bounds.
  apply Forall_fmap, Forall_forall. intros [q v] Hin.
  apply list_elem_of_filter in Hin as [Hv Hin]. simpl in *.
  subst results. unfold prec_results in Hin.
  apply list_elem_of_fmap in Hin as ([q' p'] & [= -> ->] & _).
  by apply prec_value_scored_range.
Qed.

Lemma avg_prec_at_k_count_witness :
  ∃ avg_prec count notices,
    _avg_prec_at_k [1; 2; 1] [[10; 11; 3]; [20; 4; 5]; [7; 8; 9]] 3 w_two_queries
    = (Return (avg_prec, count),
       World (self w_two_queries) (stdout w_two_queries ++ notices))
    ∧ 0 ≤ count
    ∧ count + Z.of_nat (length notices) = Z.of_nat (length [1; 2; 1])
    ∧ (0 ≤ avg_prec ≤ 1)%Qc.
Proof.
  apply (avg_prec_at_k_count w_two_queries [1; 2; 1]
           [[10; 11; 3]; [20; 4; 5]; [7; 8; 9]] 3); [simpl; lia | lia].
Defined.

Lemma scored_count_antitone rows k k' qs : ∀ ps,
  0 ≤ k → k ≤ k' → scored_count rows qs ps k' ≤ scored_count rows qs ps k.
Proof.
  intros ps Hk0 Hk. unfold scored_count, prec_results.
  generalize (zip qs ps). intros l.
  induction l as [|[q p] l IH]; [done|].
  rewrite !fmap_cons, !filter_cons. simpl.
  destruct (decide (prec_value rows q p k' ≠ (-1)%Qc)) as [H'|H'].
  - rewrite decide_True.
    + simpl. lia.
    + rewrite prec_value_sentinel in H' |- * by lia. lia.
  - destruct (decide _); simpl; lia.
Qed.

(** X12: the number of queries [_avg_prec_at_k] considers can only shrink as
    k grows: for 0 <= k <= k', on the same batch the count returned at k' is
    at most the count returned at k. *)
Theorem avg_prec_at_k_count_antitone w q_id_list predict_ids_list k k' :
  (length q_id_list ≤ length predict_ids_list)%nat →
  0 ≤ k → k ≤ k' →
  ∃ avg_prec count w1 avg_prec' count' w1',
    _avg_prec_at_k q_id_list predict_ids_list k w = (Return (avg_prec, count), w1)
    ∧ _avg_prec_at_k q_id_list predict_ids_list k' w
      = (Return (avg_prec', count'), w1')
    ∧ count' ≤ count.
Proof.
  intros Hlen Hk0 Hk. eexists _, _, _, _, _, _.
  split; [by apply avg_prec_at_k_run|].
  split; [by apply avg_prec_at_k_run|].
  by apply scored_count_antitone.
Qed.

Lemma avg_prec_at_k_count_antitone_witness :
  ∃ avg_prec count w1 avg_prec' count' w1',
    _avg_prec_at_k [1; 2] [[10]; [20]] 1 w_two_queries
    = (Return (avg_prec, count), w1)
    ∧ _avg_prec_at_k [1; 2] [[10]; [20]] 3 w_two_queries
      = (Return (avg_prec', count'), w1')
    ∧ count' ≤ count.
Proof.
  apply (avg_prec_at_k_count_antitone w_two_queries [1; 2] [[10]; [20]] 1 3);
    [simpl; lia | lia | lia].
Defined.

(** ** evaluate *)

Lemma zip_elem_of_l {A B} (x : A) (l : list A) : ∀ (k : list B),
  (length l ≤ length k)%nat → x ∈ l → ∃ y, (x, y) ∈ zip l k.
Proof.
  induction l as [|a l IH]; intros k Hlen Hin; [by apply elem_of_nil in Hin|].
  destruct k as [|b k]; [simpl in Hlen; lia|].
  apply elem_of_cons in Hin as [->|Hin].
  - exists b. by left.
  - destruct (IH k) as [y Hy]; [simpl in Hlen; lia | done |].
    exists y. by right.
Qed.

Lemma mean_reciprocal_rank_run w qs ps :
  (length qs ≤ length ps)%nat →
  (∀ q, q ∈ qs → is_Some (primary_relevant (qrels (self w)) q)) →
  _mean_reciprocal_rank qs ps w = (Return (mrr_of (qrels (self w)) qs ps), w).
Proof.
  intros Hlen Hprim. unfold _mean_reciprocal_rank.
  erewrite bind_Return
    by (apply mean_reciprocal_rank_loop_run; [done|by apply Forall_forall]).
  simpl. unfold mrr_of. by rewrite truediv_EPS, Z.add_0_l, Qcplus_0_l.
Qed.

Lemma avg_hits_at_k_run w qs ps k :
  (length qs ≤ length ps)%nat →
  (∀ q p, (q, p) ∈ zip qs ps →
     k ≤ Z.of_nat (length p) ∧ is_Some (primary_relevant (qrels (self w)) q)) →
  _avg_hits_at_k qs ps k w = (Return (avg_hits_of (qrels (self w)) qs ps k), w).
Proof.
  intros Hlen Hok. unfold _avg_hits_at_k.
  erewrite bind_Return by (by apply avg_hits_loop_run).
  simpl. unfold avg_hits_of. by rewrite truediv_EPS, !Z.add_0_l.
Qed.

(** X13: on a batch with a prediction list of at least 5 entries for every
    query, each query having a primary row, [evaluate] returns None after
    printing, in this order, the skip notices of Precision@5, of Precision@10
    and of Precision@20, then one report built from MRR, Hits@5 and the three
    precisions with their counts; earlier output is kept. *)
Theorem evaluate_report format_report w q_id_list predict_ids_list :
  (length q_id_list ≤ length predict_ids_list)%nat →
  (∀ q p, (q, p) ∈ zip q_id_list predict_ids_list →
     5 ≤ Z.of_nat (length p) ∧ is_Some (primary_relevant (qrels (self w)) q)) →
  let rows := qrels (self w) in
  let notices k := skip_notices rows q_id_list predict_ids_list k in
  let prec k := avg_prec_of rows q_id_list predict_ids_list k in
  let count k := scored_count rows q_id_list predict_ids_list k in
  evaluate format_report q_id_list predict_ids_list w =
  (Return tt,
   World (self w)
     (stdout w ++ notices 5 ++ notices 10 ++ notices 20
      ++ [format_report (mrr_of rows q_id_list predict_ids_list)
            (avg_hits_of rows q_id_list predict_ids_list 5)
            (prec 5) (count 5) (prec 10) (count 10) (prec 20) (count 20)])).
Proof.
  intros Hlen Hok rows notices prec count. unfold evaluate.
  erewrite bind_Return.
  2:{ apply mean_reciprocal_rank_run; [done|]. intros q Hq.
      destruct (zip_elem_of_l q q_id_list predict_ids_list Hlen Hq) as [p Hp].
      by destruct (Hok q p Hp). }
  erewrite bind_Return by (by apply avg_hits_at_k_run).
  erewrite bind_Return by (by apply avg_prec_at_k_run). cbv beta iota.
  erewrite bind_Return by (by apply avg_prec_at_k_run). cbv beta iota.
  erewrite bind_Return by (by apply avg_prec_at_k_run). cbv beta iota.
  erewrite bind_Return by done.
  simpl. by rewrite <-!app_assoc.
Qed.

Lemma evaluate_report_witness :
  evaluate count_report [1; 2] [[3; 4; 5; 6; 7]; [9; 1; 2; 3; 4]] w_report =
  (Return tt,
   World (self w_report)
     ["earlier output";
      "Query 2 has less than 5 golden relevant documents, skipping...";
      "Query 1 has less than 10 golden relevant documents, skipping...";
      "Query 2 has less than 10 golden relevant documents, skipping...";
      "Query 1 has less than 20 golden relevant documents, skipping...";
      "Query 2 has less than 20 golden relevant documents, skipping...";
      "1 0 0"]).
Proof.
  rewrite (evaluate_report count_report w_report [1; 2]
             [[3; 4; 5; 6; 7]; [9; 1; 2; 3; 4]]).
  - reflexivity.
  - simpl. lia.
  - intros q p Hin. simpl in Hin.
    apply elem_of_cons in Hin as [[= -> ->]|Hin];
      [split; [simpl; lia | by eexists]|].
    apply elem_of_cons in Hin as [[= -> ->]|Hin];
      [split; [simpl; lia | by eexists]|].
    by apply elem_of_nil in Hin.
Defined.

(** X14: [evaluate] needs five predictions per query: on a batch with one
    prediction list per query, each query having a primary row, as soon as
    one prediction list has fewer than 5 entries [evaluate] raises the
    [ValueError] of Hits@5 and prints nothing, neither report nor notice,
    although MRR has been computed. *)
Theorem evaluate_needs_5_predictions format_report w q_id_list predict_ids_list :
  length q_id_list = length predict_ids_list →
  (∀ q, q ∈ q_id_list → is_Some (primary_relevant (qrels (self w)) q)) →
  (∃ p, p ∈ predict_ids_list ∧ Z.of_nat (length p) < 5) →
  evaluate format_report q_id_list predict_ids_list w
  = (Raise (ValueError "k is greater than number of predicted_id!"), w).
Proof.
  intros Hlen Hprim Hshort. unfold evaluate.
  erewrite bind_Return by (apply mean_reciprocal_rank_run; [lia|done]).
  apply bind_Raise. unfold _avg_hits_at_k. apply bind_Raise.
  eapply avg_hits_loop_short_ValueError; [done | done | |].
  - by apply Exists_exists.
  - intros q p Hin _. apply Hprim. by apply elem_of_zip_l in Hin.
Qed.

Lemma evaluate_needs_5_predictions_witness :
  evaluate count_report [1; 2] [[3; 4; 5; 6; 7]; [9; 1]] w_report
  = (Raise (ValueError "k is greater than number of predicted_id!"), w_report).
Proof.
  apply (evaluate_needs_5_predictions count_report w_report [1; 2]
           [[3; 4; 5; 6; 7]; [9; 1]]).
  - reflexivity.
  - intros q Hq.
    apply elem_of_cons in Hq as [->|Hq]; [by eexists|].
    apply elem_of_cons in Hq as [->|Hq]; [by eexists|].
    by apply elem_of_nil in Hq.
  - exists [9; 1]. split; [right; left | simpl; lia].
Defined.

(** ** Precision looks at a set *)

(** X15: [_prec_at_k] depends on the predictions only through the set of
    documents among [predict_ids[:k]]: two prediction lists whose slices hold
    the same documents, in any order and however often repeated, get the same
    result. *)
Theorem prec_at_k_set_of_top_k w query_id predict_ids predict_ids' k :
  (∀ x, x ∈ slice_to predict_ids k ↔ x ∈ slice_to predict_ids' k) →
  _prec_at_k query_id predict_ids k w = _prec_at_k query_id predict_ids' k w.
Proof.
  intros Hsame. rewrite !prec_at_k_formula.
  assert (Hset : (list_to_set (slice_to predict_ids k) : gset Z)
                 = list_to_set (slice_to predict_ids' k)).
  { apply set_eq. intros x. rewrite !elem_of_list_to_set. apply Hsame. }
  by rewrite Hset.
Qed.

Lemma prec_at_k_set_of_top_k_witness :
  _prec_at_k 1 [10; 11; 10; 99] 3 w_two_queries
  = _prec_at_k 1 [11; 10; 11; 98] 3 w_two_queries.
Proof.
  apply (prec_at_k_set_of_top_k w_two_queries 1 [10; 11; 10; 99]
           [11; 10; 11; 98] 3).
  intros x. vm_compute slice_to.
  rewrite !elem_of_cons. pose proof (elem_of_nil x). tauto.
Defined.

(** ** k = 0, and the rows of other queries *)

(** X16: k = 0 divides by EPS, not by zero: [_prec_at_k] returns 0 for every
    query and every prediction list, never the sentinel, and [_hits_at_k]
    returns 0 for every query that has a primary row. *)
Theorem metrics_at_k_0 w query_id predict_ids :
  _prec_at_k query_id predict_ids 0 w = (Return 0%Qc, w)
  ∧ (is_Some (primary_relevant (qrels (self w)) query_id) →
     _hits_at_k query_id predict_ids 0 w = (Return 0, w)).
Proof.
  split.
  - rewrite prec_at_k_formula.
    rewrite decide_False by (unfold judged_rows; lia).
    rewrite slice_to_nonneg by done.
    change (take (Z.to_nat 0) predict_ids) with (@nil Z).
    rewrite list_to_set_nil, (right_absorb_L ∅ (∩)), size_empty.
    change (Z.of_nat 0) with 0. by rewrite Z2Qc_inj_0, Qcdiv_0_l.
  - intros [g Hg]. rewrite hits_at_k_run, Hg, slice_to_nonneg by done.
    change (take (Z.to_nat 0) predict_ids) with (@nil Z).
    rewrite decide_False; [done|apply not_elem_of_nil].
Qed.

Lemma metrics_at_k_0_witness :
  _prec_at_k 1 [7; 8] 0 w_primary_7 = (Return 0%Qc, w_primary_7)
  ∧ _hits_at_k 1 [7; 8] 0 w_primary_7 = (Return 0, w_primary_7).
Proof.
  destruct (metrics_at_k_0 w_primary_7 1 [7; 8]) as [H1 H2].
  split; [exact H1 | apply H2; by eexists].
Defined.

Lemma primary_relevant_filter rows q :
  primary_relevant rows q
  = primary_relevant (filter (λ r, id_left r = q) rows) q.
Proof.
  induction rows as [|r rows IH]; [done|].
  rewrite filter_cons. simpl.
  destruct (decide (id_left r = q)) as [Hq|Hq]; simpl.
  - destruct (decide _); [done|apply IH].
  - rewrite decide_False by (by intros [? _]). apply IH.
Qed.

(** X17: the per-query methods look only at the rows of their query: on two
    tables with the same rows for the query, in the same order,
    [_hits_at_k], [_reciprocal_rank] and [_prec_at_k] have the same
    outcome, whatever the rows of the other queries are. *)
Theorem per_query_methods_local w w' query_id predict_ids k :
  filter (λ r, id_left r = query_id) (qrels (self w))
  = filter (λ r, id_left r = query_id) (qrels (self w')) →
  (_hits_at_k query_id predict_ids k w).1
  = (_hits_at_k query_id predict_ids k w').1
  ∧ (_reciprocal_rank query_id predict_ids w).1
    = (_reciprocal_rank query_id predict_ids w').1
  ∧ (_prec_at_k query_id predict_ids k w).1
    = (_prec_at_k query_id predict_ids k w').1.
Proof.
  intros Hrows.
  assert (Hp : primary_relevant (qrels (self w)) query_id
               = primary_relevant (qrels (self w')) query_id).
  { rewrite (primary_relevant_filter (qrels (self w))), Hrows.
    symmetry. apply primary_relevant_filter. }
  split; [|split].
  - rewrite (hits_at_k_run _ _ _ w), (hits_at_k_run _ _ _ w'), Hp.
    by destruct (primary_relevant (qrels (self w')) query_id).
  - rewrite (reciprocal_rank_run _ _ w), (reciprocal_rank_run _ _ w'), Hp.
    destruct (primary_relevant (qrels (self w')) query_id) as [g|]; [|done].
    by destruct (index_of g predict_ids).
  - rewrite (prec_at_k_formula _ _ _ w), (prec_at_k_formula _ _ _ w').
    unfold judged_rows, all_relevant. by rewrite Hrows.
Qed.

Lemma per_query_methods_local_witness :
  (_hits_at_k 2 [20; 21] 1 w_two_queries).1
  = (_hits_at_k 2 [20; 21] 1
       (World {| qrels := [Qrel 5 0 50 2; Qrel 2 0 20 2] |} ["x"])).1
  ∧ (_reciprocal_rank 2 [20; 21] w_two_queries).1
    = (_reciprocal_rank 2 [20; 21]
         (World {| qrels := [Qrel 5 0 50 2; Qrel 2 0 20 2] |} ["x"])).1
  ∧ (_prec_at_k 2 [20; 21] 1 w_two_queries).1
    = (_prec_at_k 2 [20; 21] 1
         (World {| qrels := [Qrel 5 0 50 2; Qrel 2 0 20 2] |} ["x"])).1.
Proof.
  apply (per_query_methods_local w_two_queries
           (World {| qrels := [Qrel 5 0 50 2; Qrel 2 0 20 2] |} ["x"])
           2 [20; 21] 1).
  reflexivity.
Defined.
